(** * File-Organizer: the classification and relocation routine of [fileorg.py]

    A shallow embedding of [get_image_year], [Worker.run] and [Worker.stop],
    with the operating-system calls they make ([os.listdir], [os.path.isfile],
    [os.path.exists], [os.makedirs], [shutil.move], [Image.open],
    [os.path.getmtime]) behind an interface, and the properties of the
    classifier and of the relocation loop proved over it. *)

From Stdlib Require Import Bool List ZArith QArith Qround Qabs Qpower.
From Stdlib Require Import Lia Lqa Ascii String Sorted SpecFloat.
From Stdlib Require Import DecimalString.
Import ListNotations.

Local Open Scope string_scope.
Local Open Scope list_scope.

(** ** Python strings

    File names are [str] values; they are modelled as [string], the bytes
    of their UTF-8 encoding, on which ['.'], [':'] and ['/'] are found where
    Python finds them.  [str.lower] is taken on the letters [A]..[Z]: of the
    characters beyond ASCII that Python also lower-cases, none yields a
    letter of the photo extensions alone. *)

Module PyStr.

(** [c in s] for a one-character [c]. *)
Fixpoint contains (c : ascii) (s : string) : bool :=
  match s with
  | EmptyString => false
  | String a rest => if Ascii.eqb a c then true else contains c rest
  end.

(** [s.split(sep)] for a one-character separator: it cuts at every
    occurrence and never returns an empty list. *)
Fixpoint split (sep : ascii) (s : string) : list string :=
  match s with
  | EmptyString => [EmptyString]
  | String a rest =>
      if Ascii.eqb a sep then EmptyString :: split sep rest
      else match split sep rest with
           | [] => [String a EmptyString]
           | w :: ws => String a w :: ws
           end
  end.

(** [l[-1]] and [l[0]] on the result of [split], which is never empty
    ([split_not_nil]); the default is not reached. *)
Definition item_last (l : list string) : string := List.last l EmptyString.
Definition item_first (l : list string) : string := List.hd EmptyString l.

Definition lower_char (a : ascii) : ascii :=
  let n := nat_of_ascii a in
  if andb (Nat.leb 65 n) (Nat.leb n 90) then ascii_of_nat (n + 32) else a.

(** [s.lower()]. *)
Fixpoint lower (s : string) : string :=
  match s with
  | EmptyString => EmptyString
  | String a rest => String (lower_char a) (lower rest)
  end.

(** [x in S] for a set of strings written as a list. *)
Definition mem (x : string) (S : list string) : bool :=
  existsb (String.eqb x) S.

End PyStr.

(** ** The classifier *)

(** [PHOTO_EXTENSIONS] (line 16). *)
Definition PHOTO_EXTENSIONS : list string :=
  ["jpg"; "jpeg"; "png"; "gif"; "bmp"; "tiff"].

(** The two values the variable [mode] takes in [Worker.run]. *)
Inductive OrganizationMode := Photo | Default.

(** The label of the folder of files without a ['.'] (line 70). *)
Definition NO_EXTENSION : string := "без_расширения".

(** Lines 53-58:
    [all(f.lower().split('.')[-1] in PHOTO_EXTENSIONS for f in files if '.' in f)]. *)
Definition determine_mode (files : list string) : OrganizationMode :=
  if forallb
       (fun f => PyStr.mem (PyStr.item_last (PyStr.split "." (PyStr.lower f)))
                           PHOTO_EXTENSIONS)
       (filter (PyStr.contains ".") files)
  then Photo else Default.

(** Line 70:
    [ext = filename.split('.')[-1] if '.' in filename else "без_расширения"]. *)
Definition default_ext (filename : string) : string :=
  if PyStr.contains "." filename
  then PyStr.item_last (PyStr.split "." filename)
  else NO_EXTENSION.

(** The substring after the final ['.'], as the specification words it:
    [None] when the name has no ['.']. *)
Fixpoint after_last_dot (s : string) : option string :=
  match s with
  | EmptyString => None
  | String a rest =>
      match after_last_dot rest with
      | Some e => Some e
      | None => if Ascii.eqb a "." then Some rest else None
      end
  end.

(** The lower-cased extension of the data model: lower-cased substring after
    the final ['.'], or nothing. *)
Definition lower_extension (s : string) : option string :=
  option_map PyStr.lower (after_last_dot s).

(** The destination of Default mode as the specification words it: the
    lower-cased extension, or the label. *)
Definition spec_default_destination (filename : string) : string :=
  match lower_extension filename with
  | Some e => e
  | None => NO_EXTENSION
  end.

(** What precedes the first [':'] of a string (all of it without one). *)
Fixpoint before_colon (s : string) : string :=
  match s with
  | EmptyString => EmptyString
  | String a rest =>
      if Ascii.eqb a ":" then EmptyString else String a (before_colon rest)
  end.

(** The prefix of four characters, the place of the year in an EXIF date
    [YYYY:MM:DD HH:MM:SS]. *)
Definition four_char_prefix (s : string) : string := String.substring 0 4 s.

Definition is_digit (a : ascii) : bool :=
  let n := nat_of_ascii a in andb (Nat.leb 48 n) (Nat.leb n 57).

Fixpoint all_digits (s : string) : bool :=
  match s with
  | EmptyString => true
  | String a rest => andb (is_digit a) (all_digits rest)
  end.

(** A year written on four digits. *)
Definition is_year4 (s : string) : bool :=
  andb (Nat.eqb (String.length s) 4) (all_digits s).

(** A value that starts as an EXIF date does: four digits and a [':']. *)
Definition exif_form (v : string) : bool :=
  andb (is_year4 (four_char_prefix v))
       (match String.get 4 v with
        | Some a => Ascii.eqb a ":"
        | None => false
        end).

(** ** Python arithmetic: [int((processed / total) * 100)]

    [processed / total] is the true division of two [int]s, which CPython
    rounds correctly to the nearest binary64 number (ties to even); the
    product with [100] is the binary64 product, rounded the same way; [int]
    truncates toward zero.  A float is modelled by the rational it denotes
    and each operation by the exact operation followed by the rounding [RN].
    The values that occur lie in [0, 100], so that overflow to infinity is not
    modelled; gradual underflow is (the exponent never goes below [emin]). *)

Module Float64.

Local Open Scope Q_scope.

Definition prec : Z := 53.
Definition emin : Z := -1074.

(** For [x <> 0], the exponent [e] with [2^(e-1) <= |x| < 2^e]. *)
Definition mag (x : Q) : Z :=
  let e0 := (Z.log2 (Z.abs (Qnum x)) - Z.log2 (Zpos (Qden x)))%Z in
  if Qle_bool (2 ^ e0) (Qabs x) then (e0 + 1)%Z else e0.

(** The exponent of the last place of the binary64 numbers around [x]. *)
Definition cexp (x : Q) : Z := Z.max (mag x - prec) emin.

(** Rounding to the nearest integer, ties to even. *)
Definition rne (x : Q) : Z :=
  let f := Qfloor x in
  match Qcompare (x - inject_Z f) (1 # 2) with
  | Lt => f
  | Gt => (f + 1)%Z
  | Eq => if Z.even f then f else (f + 1)%Z
  end.

(** Rounding to the nearest binary64 number, ties to even. *)
Definition RN (x : Q) : Q :=
  if Qeq_bool x 0 then 0
  else let c := cexp x in inject_Z (rne (x / 2 ^ c)) * 2 ^ c.

(** [a / b] on two [int]s ([b] is not zero where the program divides). *)
Definition true_div (a b : Z) : Q := RN (inject_Z a / inject_Z b).

(** [x * y] on two floats. *)
Definition mul (x y : Q) : Q := RN (x * y).

(** [float(n)] for an [int] that binary64 holds exactly. *)
Definition of_int (n : Z) : Q := RN (inject_Z n).

(** [int(x)]: truncation toward zero. *)
Definition to_int (x : Q) : Z :=
  if Qle_bool 0 x then Qfloor x else Qceiling x.

End Float64.

(** The float handed to [int] on line 81: [(processed / total) * 100]. *)
Definition scaled (processed total : Z) : Q :=
  Float64.mul (Float64.true_div processed total) (Float64.of_int 100).

(** Line 81: [progress = int((processed / total) * 100)]. *)
Definition progress (processed total : Z) : Z :=
  Float64.to_int (scaled processed total).

(** The same percentage in exact arithmetic, for comparison. *)
Definition exact_percentage (processed total : Z) : Z :=
  (processed * 100 / total)%Z.

(** ** [os.path] (POSIX flavour) *)

Module PyPath.

Definition starts_with_slash (s : string) : bool :=
  match s with
  | String a _ => Ascii.eqb a "/"
  | EmptyString => false
  end.

Fixpoint ends_with_slash (s : string) : bool :=
  match s with
  | EmptyString => false
  | String a EmptyString => Ascii.eqb a "/"
  | String _ rest => ends_with_slash rest
  end.

(** [os.path.join(a, b)]. *)
Definition join (a b : string) : string :=
  if starts_with_slash b then b
  else if orb (String.eqb a "") (ends_with_slash a) then a ++ b
  else a ++ "/" ++ b.

(** [os.path.basename(p)]: what follows the last ['/']. *)
Definition basename (p : string) : string :=
  PyStr.item_last (PyStr.split "/" p).

End PyPath.

(** ** Exceptions and the metadata table *)

(** The outcome of a call that may raise; an exception is kept as its
    message, [str(e)]. *)
Inductive result (A : Type) : Type :=
| Ok (a : A)
| Raise (e : string).
Arguments Ok {A} a.
Arguments Raise {A} e.

Definition bind {A B : Type} (r : result A) (k : A -> result B) : result B :=
  match r with
  | Ok a => k a
  | Raise e => Raise e
  end.

Notation "x <- r ;; k" := (bind r (fun x => k))
  (at level 61, r at next level, right associativity).

(** A value of the dictionary [img._getexif()] returns: a [str], or a value
    of another Python type ([bytes], [int], a tuple), on which [.split(":")]
    raises. *)
Inductive exif_value :=
| ExifStr (s : string)
| ExifBytes (b : string)
| ExifInt (n : Z).

(** The dictionary itself, in iteration order: tag number, value. *)
Definition exif_dict := list (Z * exif_value).

(** [PIL.ExifTags.TAGS], restricted to the date and camera tags; the table
    of the library is larger, and [36867] is its only key for
    ["DateTimeOriginal"]. *)
Definition TAGS : list (Z * string) :=
  [ (271, "Make"); (272, "Model"); (274, "Orientation"); (306, "DateTime");
    (36867, "DateTimeOriginal"); (36868, "DateTimeDigitized") ]%Z.

(** [TAGS.get(tag, tag)]: the name, or the tag number itself. *)
Definition TAGS_get (tag : Z) : string + Z :=
  match find (fun kv => Z.eqb (fst kv) tag) TAGS with
  | Some kv => inl (snd kv)
  | None => inr tag
  end.

Definition is_DateTimeOriginal (tag : Z) : bool :=
  match TAGS_get tag with
  | inl name => String.eqb name "DateTimeOriginal"
  | inr _ => false
  end.

(** [value.split(":")[0]] (line 29). *)
Definition split_year (value : exif_value) : result string :=
  match value with
  | ExifStr s => Ok (PyStr.item_first (PyStr.split ":" s))
  | ExifBytes _ => Raise "a bytes-like object is required, not 'str'"
  | ExifInt _ => Raise "'int' object has no attribute 'split'"
  end.

(** Lines 27-29: the [for] loop over [exif_data.items()].  [Some r] is the
    [return] (or the exception) of the first item named DateTimeOriginal,
    [None] a loop that ends without one. *)
Fixpoint scan_exif (items : exif_dict) : option (result string) :=
  match items with
  | [] => None
  | (tag, value) :: rest =>
      if is_DateTimeOriginal tag then Some (split_year value)
      else scan_exif rest
  end.

(** ** The operating system *)

(** What [fileorg.py] asks of the file system and of Pillow.  [world] is the
    state of the file system; calls that only read leave it as it is. *)
Class OS (world : Type) := {
  (** [os.listdir(folder)], in the order the file system gives; the folder
      is one [start_organization] has found to be a directory (line 200),
      and its listing is taken to succeed. *)
  listdir : world -> string -> list string;
  (** [os.path.isfile(path)]. *)
  isfile : world -> string -> bool;
  (** [os.path.exists(path)]. *)
  path_exists : world -> string -> bool;
  (** [os.makedirs(path)]: the new state, or the exception. *)
  makedirs : world -> string -> result world;
  (** [shutil.move(src, dst)]: the state it leaves and the exception it
      raised, if any. *)
  move : world -> string -> string -> world * option string;
  (** [with Image.open(path) as img: img._getexif()]: the dictionary, [None],
      or the exception of either call. *)
  getexif : world -> string -> result (option exif_dict);
  (** [os.path.getmtime(path)], in whole seconds. *)
  getmtime : world -> string -> result Z;
  (** [datetime.fromtimestamp(t).strftime("%Y")] in the local calendar: the
      year as the platform prints it, or the exception [fromtimestamp]
      raises on a timestamp that falls outside the years 1..9999. *)
  strftime_Y : Z -> result string;
  (** [os.path.getmtime] reads the status [os.path.isfile] has read. *)
  getmtime_isfile :
    forall w path, isfile w path = true -> exists t, getmtime w path = Ok t
}.

(** ** Signals and calls *)

(** What [Worker] emits: [log_update], [progress_update], [finished_signal]. *)
Inductive event :=
| log_update (text : string)
| progress_update (value : Z)
| finished_signal.

(** The calls of a run that change the file system, recorded beside the
    events: the folder created, the move attempted and whether it went
    through. *)
Inductive oscall :=
| call_makedirs (path : string)
| call_move (src dst : string) (moved : bool).

(** How the body of [run] is left: by the [return] of the zero-file case, at
    the end of the loop, through [break], or by an exception nothing
    catches. *)
Inductive exit :=
| NoFiles
| Exhausted
| Cancelled
| Uncaught (e : string).

(** The fields of a [Worker] (lines 39-42). *)
Record Worker := { folder : string; _is_running : bool }.

(** [Worker.__init__] *)
Definition Worker_init (folder : string) : Worker :=
  {| folder := folder; _is_running := true |}.

(** [Worker.stop] (lines 87-88). *)
Definition stop (self : Worker) : Worker :=
  {| folder := folder self; _is_running := false |}.

Record outcome (world : Type) := {
  events : list event;
  calls : list oscall;
  final : world;
  processed : Z;
  how : exit
}.
Arguments events {world} o.
Arguments calls {world} o.
Arguments final {world} o.
Arguments processed {world} o.
Arguments how {world} o.

(** No call of [stop] ever arrives. *)
Definition never : nat -> bool := fun _ => false.

(** [stop] is called once [k] files have been processed. *)
Definition stop_after (k : nat) : nat -> bool := fun i => Nat.leb k i.

(** The values of the [progress_update] signals, in order. *)
Fixpoint progress_values (evs : list event) : list Z :=
  match evs with
  | [] => []
  | progress_update v :: rest => v :: progress_values rest
  | _ :: rest => progress_values rest
  end.

(** The number of [finished_signal]s. *)
Fixpoint completions (evs : list event) : nat :=
  match evs with
  | [] => 0
  | finished_signal :: rest => S (completions rest)
  | _ :: rest => completions rest
  end.

(** The sources of the moves attempted, and of those that went through. *)
Fixpoint moves_attempted (cs : list oscall) : list string :=
  match cs with
  | [] => []
  | call_move src _ _ :: rest => src :: moves_attempted rest
  | _ :: rest => moves_attempted rest
  end.

Fixpoint moves_done (cs : list oscall) : list string :=
  match cs with
  | [] => []
  | call_move src _ true :: rest => src :: moves_done rest
  | _ :: rest => moves_done rest
  end.

Section Relocator.

Context {world : Type} {os : OS world}.

(** Lines 23-31: the [try] block.  [Some year] is its [return]; [None] means
    control reaches line 32, the metadata being absent, empty, without the
    field, or the block having raised ([except Exception: pass]). *)
Definition try_exif (w : world) (filepath : string) : option string :=
  match getexif w filepath with
  | Raise _ => None
  | Ok None => None
  | Ok (Some []) => None
  | Ok (Some items) =>
      match scan_exif items with
      | Some (Ok year) => Some year
      | Some (Raise _) => None
      | None => None
      end
  end.

(** [get_image_year] (lines 18-32). *)
Definition get_image_year (w : world) (filepath : string) : result string :=
  match try_exif w filepath with
  | Some year => Ok year
  | None => t <- getmtime w filepath ;; strftime_Y t
  end.

(** The capture date of the specification: the value of the field
    DateTimeOriginal, when the metadata can be read and holds it as text. *)
Definition capture_date (w : world) (filepath : string) : option string :=
  match getexif w filepath with
  | Ok (Some items) =>
      match find (fun kv => is_DateTimeOriginal (fst kv)) items with
      | Some (_, ExifStr v) => Some v
      | _ => None
      end
  | _ => None
  end.

(** The metadata cannot be read: opening the image or reading its table
    raises, or the value of the field is not text. *)
Definition metadata_read_fails (w : world) (filepath : string) : Prop :=
  (exists e, getexif w filepath = Raise e) \/
  (exists items e,
      getexif w filepath = Ok (Some items) /\
      scan_exif items = Some (Raise e)).

(** Lines 65-71: [target_dir] of one file. *)
Definition target_dir (w : world) (dir : string) (mode : OrganizationMode)
    (filename : string) : result string :=
  let filepath := PyPath.join dir filename in
  match mode with
  | Photo =>
      year <- get_image_year w filepath ;;
      Ok (PyPath.join dir ("Фотографии " ++ year))
  | Default => Ok (PyPath.join dir (default_ext filename))
  end.

(** Lines 72-74: the destination folder is created when nothing has its
    path. *)
Definition ensure_dir (w : world) (tdir : string)
    : result (world * list event * list oscall) :=
  if path_exists w tdir then Ok (w, [], [])
  else
    w' <- makedirs w tdir ;;
    Ok (w', [log_update ("Создана папка: " ++ tdir)], [call_makedirs tdir]).

(** Lines 77 and 79: the log line of a move, by its outcome. *)
Definition move_log (filename tdir : string) (failure : option string)
    : event :=
  match failure with
  | None => log_update (filename ++ " → " ++ PyPath.basename tdir)
  | Some e => log_update ("Ошибка с " ++ filename ++ ": " ++ e)
  end.

Definition went_through (failure : option string) : bool :=
  match failure with
  | None => true
  | Some _ => false
  end.

(** Lines 65-82: the body of the loop for one file, after the cancellation
    test.  It gives the events and calls of the iteration and the state it
    leaves; [Raise] is an exception that leaves the loop. *)
Definition process_file (dir : string) (mode : OrganizationMode) (total : Z)
    (w : world) (done : Z) (filename : string)
    : list event * list oscall * world * result Z :=
  let filepath := PyPath.join dir filename in
  match target_dir w dir mode filename with
  | Raise e => ([], [], w, Raise e)
  | Ok tdir =>
      match ensure_dir w tdir with
      | Raise e => ([], [call_makedirs tdir], w, Raise e)
      | Ok (w1, ev1, c1) =>
          let dst := PyPath.join tdir filename in
          let '(w2, failure) := move w1 filepath dst in
          let done' := (done + 1)%Z in
          (ev1 ++ [move_log filename tdir failure;
                   progress_update (progress done' total)],
           c1 ++ [call_move filepath dst (went_through failure)],
           w2, Ok done')
      end
  end.

(** Lines 61-83: the loop.  [stop_arrives i] tells whether the thread of the
    window has called [stop] by the time the test of line 62 runs with [i]
    files processed. *)
Fixpoint loop (stop_arrives : nat -> bool) (dir : string)
    (mode : OrganizationMode) (total : Z) (files : list string)
    (self : Worker) (w : world) (done : Z) : outcome world :=
  match files with
  | [] =>
      {| events := []; calls := []; final := w; processed := done;
         how := Exhausted |}
  | filename :: rest =>
      let self := if stop_arrives (Z.to_nat done) then stop self else self in
      if negb (_is_running self) then
        {| events := [log_update "Операция отменена."]; calls := [];
           final := w; processed := done; how := Cancelled |}
      else
        match process_file dir mode total w done filename with
        | (ev, cs, w', Raise e) =>
            {| events := ev; calls := cs; final := w'; processed := done;
               how := Uncaught e |}
        | (ev, cs, w', Ok done') =>
            let o := loop stop_arrives dir mode total rest self w' done' in
            {| events := ev ++ events o; calls := cs ++ calls o;
               final := final o; processed := processed o; how := how o |}
        end
  end.

(** The log line that names the mode (lines 55 and 58). *)
Definition mode_message (mode : OrganizationMode) : string :=
  match mode with
  | Photo => "Сортируем фотографии по году."
  | Default => "Сортируем файлы по расширению."
  end.

(** Line 45: the regular files of the folder,
    [[f for f in os.listdir(self.folder) if os.path.isfile(...)]]. *)
Definition listing (self : Worker) (w : world) : list string :=
  filter (fun f => isfile w (PyPath.join (folder self) f))
         (listdir w (folder self)).

(** What follows the loop: lines 84-85, which an exception skips. *)
Definition epilogue (x : exit) : list event :=
  match x with
  | Uncaught _ => []
  | _ => [log_update "Организация завершена."; finished_signal]
  end.

(** [Worker.run] (lines 44-85). *)
Definition run (stop_arrives : nat -> bool) (self : Worker) (w : world)
    : outcome world :=
  let files := listing self w in
  let total := Z.of_nat (List.length files) in
  if Z.eqb total 0 then
    {| events := [log_update "Нет файлов для организации."; finished_signal];
       calls := []; final := w; processed := 0; how := NoFiles |}
  else
    let mode := determine_mode files in
    let o := loop stop_arrives (folder self) mode total files self w 0 in
    {| events := log_update (mode_message mode) :: events o
                 ++ epilogue (how o);
       calls := calls o; final := final o; processed := processed o;
       how := how o |}.

(** The two ways the body of the loop ends: an exception before the move,
    with nothing emitted, or the move attempted, its log line and the
    progress emitted, and one more file counted. *)
Inductive iteration (dir : string) (mode : OrganizationMode) (total : Z)
    (w : world) (done : Z) (filename : string)
    : list event * list oscall * world * result Z -> Prop :=
| iteration_raises e cs :
    moves_attempted cs = [] ->
    iteration dir mode total w done filename ([], cs, w, Raise e)
| iteration_moves tdir w1 ev1 c1 w2 failure :
    target_dir w dir mode filename = Ok tdir ->
    ensure_dir w tdir = Ok (w1, ev1, c1) ->
    progress_values ev1 = [] -> completions ev1 = 0%nat ->
    moves_attempted c1 = [] ->
    move w1 (PyPath.join dir filename) (PyPath.join tdir filename)
      = (w2, failure) ->
    iteration dir mode total w done filename
      (ev1 ++ [move_log filename tdir failure;
               progress_update (progress (done + 1) total)],
       c1 ++ [call_move (PyPath.join dir filename) (PyPath.join tdir filename)
                (went_through failure)],
       w2, Ok (done + 1)%Z).

End Relocator.

(** ** A file system in memory

    An instance of the interface, to run the program on: the entries of the
    file system by path, in listing order.  A file carries what
    [Image.open(..)._getexif()] gives for it, its modification time, and the
    message of the error the system opposes to moving it, if any. *)

Module MemFS.

Record file_info := {
  f_exif : result (option exif_dict);
  f_mtime : Z;
  f_locked : option string
}.

Inductive entry :=
| EFile (info : file_info)
| EDir.

Definition fs := list (string * entry).

Fixpoint lookup (path : string) (w : fs) : option entry :=
  match w with
  | [] => None
  | (p, e) :: rest => if String.eqb p path then Some e else lookup path rest
  end.

Definition remove (path : string) (w : fs) : fs :=
  filter (fun pe => negb (String.eqb (fst pe) path)) w.

(** [s] without the prefix [p], when it has it. *)
Fixpoint strip_prefix (p s : string) : option string :=
  match p, s with
  | EmptyString, _ => Some s
  | String a p', String b s' =>
      if Ascii.eqb a b then strip_prefix p' s' else None
  | String _ _, EmptyString => None
  end.

(** The path without its last component: what precedes the last ['/']. *)
Fixpoint dirname (p : string) : string :=
  match p with
  | EmptyString => EmptyString
  | String a rest =>
      if PyStr.contains "/" rest then String a (dirname rest) else EmptyString
  end.

(** The path without a trailing ['/']. *)
Fixpoint chomp_slash (p : string) : string :=
  match p with
  | EmptyString => EmptyString
  | String a EmptyString => if Ascii.eqb a "/" then EmptyString else p
  | String a rest => String a (chomp_slash rest)
  end.

Definition m_listdir (w : fs) (dir : string) : list string :=
  flat_map
    (fun pe =>
       match strip_prefix (dir ++ "/") (fst pe) with
       | Some name =>
           if orb (String.eqb name "") (PyStr.contains "/" name) then []
           else [name]
       | None => []
       end) w.

Definition m_isfile (w : fs) (path : string) : bool :=
  match lookup path w with
  | Some (EFile _) => true
  | _ => false
  end.

Definition m_exists (w : fs) (path : string) : bool :=
  match lookup (chomp_slash path) w with
  | Some _ => true
  | None => false
  end.

Definition m_makedirs (w : fs) (path : string) : result fs :=
  if m_exists w path then Raise ("[Errno 17] File exists: '" ++ path ++ "'")
  else Ok (w ++ [(path, EDir)]).

Definition m_move (w : fs) (src dst : string) : fs * option string :=
  match lookup src w with
  | Some (EFile info) =>
      match f_locked info with
      | Some reason => (w, Some reason)
      | None =>
          match lookup (dirname dst) w with
          | Some EDir =>
              if String.eqb src dst then (w, None)
              else (remove src (remove dst w) ++ [(dst, EFile info)], None)
          | Some (EFile _) =>
              (w, Some ("[Errno 20] Not a directory: '" ++ dst ++ "'")%string)
          | None =>
              (w, Some ("[Errno 2] No such file or directory: '" ++ dst ++ "'")%string)
          end
      end
  | _ => (w, Some ("[Errno 2] No such file or directory: '" ++ src ++ "'")%string)
  end.

Definition m_getexif (w : fs) (path : string) : result (option exif_dict) :=
  match lookup path w with
  | Some (EFile info) => f_exif info
  | _ => Raise ("[Errno 2] No such file or directory: '" ++ path ++ "'")
  end.

Definition m_getmtime (w : fs) (path : string) : result Z :=
  match lookup path w with
  | Some (EFile info) => Ok (f_mtime info)
  | Some EDir => Ok 0%Z
  | None => Raise ("[Errno 2] No such file or directory: '" ++ path ++ "'")
  end.

(** The year of a timestamp in the proleptic Gregorian calendar, UTC. *)
Definition utc_year (t : Z) : Z :=
  let z := (t / 86400 + 719468)%Z in
  let era := (z / 146097)%Z in
  let doe := (z - era * 146097)%Z in
  let yoe := ((doe - doe / 1460 + doe / 36524 - doe / 146096) / 365)%Z in
  let doy := (doe - (365 * yoe + yoe / 4 - yoe / 100))%Z in
  let mp := ((5 * doy + 2) / 153)%Z in
  (yoe + era * 400 + (if (mp <? 10)%Z then 0 else 1))%Z.

(** [%Y] as glibc prints it: the decimal digits of the year, without
    padding. *)
Definition year_string (y : Z) : string :=
  NilZero.string_of_int (Z.to_int y).

(** [datetime.fromtimestamp(t).strftime("%Y")]: [datetime] holds the years
    1..9999 and [fromtimestamp] raises [ValueError] beyond them. *)
Definition m_strftime_Y (t : Z) : result string :=
  let y := utc_year t in
  if andb (Z.leb 1 y) (Z.leb y 9999) then Ok (year_string y)
  else Raise ("year " ++ year_string y ++ " is out of range").

Lemma m_getmtime_isfile :
  forall w path, m_isfile w path = true -> exists t, m_getmtime w path = Ok t.
Proof.
  intros w path. unfold m_isfile, m_getmtime.
  destruct (lookup path w) as [[info|]|]; try discriminate.
  intros _. now exists (f_mtime info).
Qed.

#[global] Instance memfs_os : OS fs := {|
  listdir := m_listdir;
  isfile := m_isfile;
  path_exists := m_exists;
  makedirs := m_makedirs;
  move := m_move;
  getexif := m_getexif;
  getmtime := m_getmtime;
  strftime_Y := m_strftime_Y;
  getmtime_isfile := m_getmtime_isfile
|}.

(** A readable image taken on [date], modified at [mtime]. *)
Definition photo (date : string) (mtime : Z) : entry :=
  EFile {| f_exif := Ok (Some [(271, ExifStr "Camera"); (36867, ExifStr date)]%Z);
           f_mtime := mtime; f_locked := None |}.

(** A file Pillow cannot identify as an image. *)
Definition plain (mtime : Z) : entry :=
  EFile {| f_exif := Raise "cannot identify image file";
           f_mtime := mtime; f_locked := None |}.

(** An image without metadata. *)
Definition bare_image (mtime : Z) : entry :=
  EFile {| f_exif := Ok None; f_mtime := mtime; f_locked := None |}.

(** A file the system refuses to move. *)
Definition locked (mtime : Z) : entry :=
  EFile {| f_exif := Raise "cannot identify image file";
           f_mtime := mtime; f_locked := Some "[Errno 13] Permission denied" |}.

End MemFS.

(** ** The IEEE 754 reference of the standard library

    [SFdiv] and [SFmul] at precision 53 compute the binary64 quotient and
    product on mantissa and exponent; the percentage taken through them
    serves to check the rounding [Float64.RN] on ranges of inputs. *)

Definition ieee_of_int (n : Z) : spec_float :=
  binary_normalize 53 1024 n 0 false.

Definition ieee_to_Q (f : spec_float) : Q :=
  match f with
  | S754_finite s m e =>
      ((if s then -1 else 1) * inject_Z (Z.pos m) * 2 ^ e)%Q
  | _ => 0%Q
  end.

Definition ieee_progress (processed total : Z) : Z :=
  Float64.to_int
    (ieee_to_Q
       (SFmul 53 1024
          (SFdiv 53 1024 (ieee_of_int processed) (ieee_of_int total))
          (ieee_of_int 100))).

(** [progress] and [ieee_progress] agree on every [1 <= p <= t <= n]. *)
Definition agree_upto (n : nat) : bool :=
  forallb
    (fun t =>
       forallb
         (fun p => Z.eqb (progress (Z.of_nat p) (Z.of_nat t))
                         (ieee_progress (Z.of_nat p) (Z.of_nat t)))
         (seq 1 t))
    (seq 1 n).

(** ** Folders to run the program on *)

Module Sample.

Import MemFS.

Definition self : Worker := Worker_init "d".

(** Two photographs, the second without metadata and modified in 2021. *)
Definition photos : fs :=
  [ ("d", EDir);
    ("d/a.jpg", photo "2020:03:01 10:00:00" 1583056800);
    ("d/b.jpg", bare_image 1609459200) ]%Z.

(** A report and notes beside a subfolder. *)
Definition documents : fs :=
  [ ("d", EDir); ("d/report.pdf", plain 0); ("d/notes.txt", plain 0);
    ("d/sub", EDir); ("d/sub/x.txt", plain 0) ]%Z.

(** Three files, the first of which the system refuses to move. *)
Definition guarded : fs :=
  [ ("d", EDir); ("d/a.txt", locked 0); ("d/b.txt", plain 0);
    ("d/c.txt", plain 0) ]%Z.

(** A folder that holds subfolders only. *)
Definition organized : fs :=
  [ ("d", EDir); ("d/pdf", EDir); ("d/pdf/report.pdf", plain 0);
    ("d/txt", EDir); ("d/txt/notes.txt", plain 0) ]%Z.

(** A photograph whose capture date is written with dashes. *)
Definition dashed : fs :=
  [ ("d", EDir); ("d/a.jpg", photo "2020-03-01 10:00:00" 1609459200) ]%Z.

(** The same folder once [d/txt] has been created. *)
Definition guarded_txt : fs := guarded ++ [("d/txt", EDir)].

(** A report whose extension is written in capitals. *)
Definition uppercase : fs := [ ("d", EDir); ("d/REPORT.PDF", plain 0) ]%Z.

(** A scan that carries the tags DateTime and DateTimeDigitized only. *)
Definition digitized : fs :=
  [ ("d", EDir);
    ("d/scan.jpg",
     EFile {| f_exif := Ok (Some [(306, ExifStr "2019:05:04 12:00:00");
                                  (36868, ExifStr "2018:01:01 00:00:00")]);
              f_mtime := 1609459200; f_locked := None |}) ]%Z.

(** A file that is no image, and the same with a modification time in the
    year 10000. *)
Definition broken : fs :=
  [ ("d", EDir); ("d/broken.jpg", plain 1609459200) ]%Z.

Definition far_future : fs :=
  [ ("d", EDir); ("d/broken.jpg", plain 253402300800) ]%Z.

(** A hundred files [f1.txt] .. [f100.txt]. *)
Definition hundred : fs :=
  ("d", EDir)
  :: map (fun i =>
            (("d/f" ++ NilZero.string_of_uint (Nat.to_uint i) ++ ".txt")%string,
             plain 0))
         (seq 1 100).

(** Files without extension. *)
Definition extensionless : fs :=
  [ ("d", EDir); ("d/README", plain 1609459200) ]%Z.

End Sample.

(** ** The window

    [FileOrganizerApp] (lines 90-217), reduced to the widgets its slots read
    and write: the text of [folder_line], whether [organize_btn] is enabled,
    the value of the progress bar, the paragraphs of [log_area] and the
    worker.  Layout, style and animation ([setup_ui], [fade_in]) carry no
    state the slots use. *)

Module App.

Record Window := {
  folder_line : string;
  organize_btn : bool;
  progress : Z;
  log_area : list string;
  worker : option Worker
}.

(** The window [__init__] and [setup_ui] build: nothing chosen, the button
    enabled, the bar at 0 (line 128), no log, no worker (line 95). *)
Definition init : Window :=
  {| folder_line := ""; organize_btn := true; progress := 0;
     log_area := []; worker := None |}.

(** [log] (lines 216-217): [QTextEdit.append] adds a paragraph. *)
Definition log (self : Window) (message : string) : Window :=
  {| folder_line := folder_line self; organize_btn := organize_btn self;
     progress := progress self; log_area := log_area self ++ [message];
     worker := worker self |}.

(** [QProgressBar.setValue] on the range 0..100 the bar is left with: a
    value outside the range has no effect. *)
Definition setValue (self : Window) (value : Z) : Window :=
  if andb (Z.leb 0 value) (Z.leb value 100) then
    {| folder_line := folder_line self; organize_btn := organize_btn self;
       progress := value; log_area := log_area self;
       worker := worker self |}
  else self.

Definition setEnabled (self : Window) (b : bool) : Window :=
  {| folder_line := folder_line self; organize_btn := b;
     progress := progress self; log_area := log_area self;
     worker := worker self |}.

(** [select_folder] (lines 192-196); [chosen] is what
    [QFileDialog.getExistingDirectory] returns, the empty string when the
    dialog is dismissed. *)
Definition select_folder (self : Window) (chosen : string) : Window :=
  if String.eqb chosen "" then self
  else
    log {| folder_line := chosen; organize_btn := organize_btn self;
           progress := progress self; log_area := log_area self;
           worker := worker self |}
        ("Папка выбрана: " ++ chosen).

(** [finish] (lines 212-214). *)
Definition finish (self : Window) : Window :=
  log (setEnabled self true) "Готово!".

(** Lines 207-209: the slot each signal of the worker is connected to. *)
Definition deliver (self : Window) (e : event) : Window :=
  match e with
  | progress_update value => setValue self value
  | log_update text => log self text
  | finished_signal => finish self
  end.

(** [start_organization] (lines 198-210) up to [worker.start()]; [valid] is
    the value of [os.path.isdir(folder)].  [None] is the early [return]. *)
Definition start_organization (valid : bool) (self : Window)
    : Window * option Worker :=
  let dir := folder_line self in
  if orb (String.eqb dir "") (negb valid) then
    (log self "Неверная папка.", None)
  else
    let self1 := log (setValue (setEnabled self false) 0)
                     "Начинаем организацию..." in
    let wk := Worker_init dir in
    ({| folder_line := folder_line self1; organize_btn := organize_btn self1;
        progress := progress self1; log_area := log_area self1;
        worker := Some wk |}, Some wk).

End App.

Section Session.

Context {world : Type} {os : OS world}.

(** A press on the button and, when a worker starts, the delivery in order
    of every signal of its run to the slots, the user doing nothing else in
    between.  Nothing in the file calls [Worker.stop], so that no call of it
    arrives during the run.  [isdir] is [os.path.isdir]. *)
Definition organize_session (isdir : world -> string -> bool)
    (self : App.Window) (w : world) : App.Window * world :=
  match App.start_organization (isdir w (App.folder_line self)) self with
  | (self', None) => (self', w)
  | (self', Some wk) =>
      let o := run never wk w in
      (fold_left App.deliver (events o) self', final o)
  end.

End Session.

(** [os.path.isdir] on the file system in memory. *)
Definition memfs_isdir (w : MemFS.fs) (path : string) : bool :=
  match MemFS.lookup (MemFS.chomp_slash path) w with
  | Some MemFS.EDir => true
  | _ => false
  end.

(** The file system in memory mounted read-only: [os.makedirs] and
    [shutil.move] raise, the calls that read answer as before. *)
Definition readonly_os : OS MemFS.fs := {|
  listdir := MemFS.m_listdir;
  isfile := MemFS.m_isfile;
  path_exists := MemFS.m_exists;
  makedirs := fun _ path =>
    Raise ("[Errno 30] Read-only file system: '" ++ path ++ "'");
  move := fun w src _ =>
    (w, Some ("[Errno 30] Read-only file system: '" ++ src ++ "'")%string);
  getexif := MemFS.m_getexif;
  getmtime := MemFS.m_getmtime;
  strftime_Y := MemFS.m_strftime_Y;
  getmtime_isfile := MemFS.m_getmtime_isfile
|}.

(** The window once the folder [d] has been chosen. *)
Definition window_on_d : App.Window := App.select_folder App.init "d".

(** ** Further notions on names and traces *)

(** The name ends with ['.']. *)
Fixpoint ends_with_dot (s : string) : bool :=
  match s with
  | EmptyString => false
  | String a EmptyString => Ascii.eqb a "."
  | String _ rest => ends_with_dot rest
  end.

(** The texts of the [log_update] signals, in order. *)
Fixpoint log_texts (evs : list event) : list string :=
  match evs with
  | [] => []
  | log_update text :: rest => text :: log_texts rest
  | _ :: rest => log_texts rest
  end.

(** The calls of a run come in iterations: the move of a file of [dir] into
    a folder, preceded or not by the creation of that very folder. *)
Inductive iterations (dir : string) : list oscall -> Prop :=
| iterations_nil : iterations dir []
| iterations_move tdir filename moved rest :
    iterations dir rest ->
    iterations dir
      (call_move (PyPath.join dir filename) (PyPath.join tdir filename) moved
         :: rest)
| iterations_create tdir filename moved rest :
    iterations dir rest ->
    iterations dir
      (call_makedirs tdir
         :: call_move (PyPath.join dir filename) (PyPath.join tdir filename)
              moved
         :: rest).

(** * Properties *)

(** ** The program on the sample folders *)

Example split_abc : PyStr.split "." "a.b.c" = ["a"; "b"; "c"].
Proof. reflexivity. Qed.

Example split_trailing : PyStr.split "." "a." = ["a"; ""].
Proof. reflexivity. Qed.

Example split_empty : PyStr.split "." "" = [""].
Proof. reflexivity. Qed.

Example mode_photos : determine_mode ["a.jpg"; "B.JPEG"; "c.tar.Png"] = Photo.
Proof. reflexivity. Qed.

Example mode_mixed : determine_mode ["a.jpg"; "notes.txt"] = Default.
Proof. reflexivity. Qed.

Example ext_pdf : default_ext "report.pdf" = "pdf".
Proof. reflexivity. Qed.

Example ext_none : default_ext "README" = NO_EXTENSION.
Proof. reflexivity. Qed.

Example join_plain : PyPath.join "d" "a.jpg" = "d/a.jpg".
Proof. reflexivity. Qed.

Example join_empty : PyPath.join "d" "" = "d/".
Proof. reflexivity. Qed.

Example year_2021 : MemFS.m_strftime_Y 1609459200 = Ok "2021".
Proof. reflexivity. Qed.

Example year_2020 : MemFS.m_strftime_Y 1609459199 = Ok "2020".
Proof. reflexivity. Qed.

(** The scenario of two photographs: Photo mode, one folder per year,
    progress 50 then 100. *)
Example scenario_photos :
  let o := run never Sample.self Sample.photos in
  events o =
    [ log_update "Сортируем фотографии по году.";
      log_update "Создана папка: d/Фотографии 2020";
      log_update "a.jpg → Фотографии 2020"; progress_update 50;
      log_update "Создана папка: d/Фотографии 2021";
      log_update "b.jpg → Фотографии 2021"; progress_update 100;
      log_update "Организация завершена."; finished_signal ] /\
  moves_done (calls o) = ["d/a.jpg"; "d/b.jpg"] /\
  MemFS.m_isfile (final o) "d/Фотографии 2020/a.jpg" = true /\
  MemFS.m_isfile (final o) "d/Фотографии 2021/b.jpg" = true.
Proof. vm_compute. repeat split. Qed.

(** The scenario of a report and notes: Default mode, one folder per
    extension. *)
Example scenario_documents :
  let o := run never Sample.self Sample.documents in
  events o =
    [ log_update "Сортируем файлы по расширению.";
      log_update "Создана папка: d/pdf"; log_update "report.pdf → pdf";
      progress_update 50;
      log_update "Создана папка: d/txt"; log_update "notes.txt → txt";
      progress_update 100;
      log_update "Организация завершена."; finished_signal ] /\
  MemFS.m_isfile (final o) "d/pdf/report.pdf" = true /\
  MemFS.m_isfile (final o) "d/txt/notes.txt" = true.
Proof. vm_compute. repeat split. Qed.

(** A second run on the folder the first one leaves finds no file. *)
Example scenario_second_run :
  let o := run never Sample.self Sample.documents in
  events (run never Sample.self (final o)) =
    [ log_update "Нет файлов для организации."; finished_signal ].
Proof. vm_compute. reflexivity. Qed.

(** 29 files of 100 show as 28 per cent: the quotient is rounded below
    0.29 and the product below 29. *)
Example progress_29_of_100 :
  progress 29 100 = 28%Z /\ exact_percentage 29 100 = 29%Z.
Proof. vm_compute. split; reflexivity. Qed.

(** The rounding agrees with the IEEE 754 reference on the percentages of
    every folder of up to forty files. *)
Lemma progress_agrees_with_ieee : agree_upto 40 = true.
Proof. vm_compute. reflexivity. Qed.

(** ** Strings and the classifier *)

Lemma split_not_nil (sep : ascii) (s : string) : PyStr.split sep s <> [].
Proof.
  destruct s as [|a rest]; cbn; [discriminate|].
  destruct (Ascii.eqb a sep); [discriminate|].
  destruct (PyStr.split sep rest); discriminate.
Qed.

(** [split] cuts the name into what precedes the last ['.'] and the
    extension, or leaves it whole. *)
Lemma split_after_last_dot (s : string) :
  match after_last_dot s with
  | None => PyStr.split "." s = [s]
  | Some e => exists w ws, PyStr.split "." s = w :: ws ++ [e]
  end.
Proof.
  induction s as [|a rest IH]; cbn [after_last_dot PyStr.split]; [reflexivity|].
  destruct (after_last_dot rest) as [e|].
  - destruct IH as (w & ws & IH). rewrite IH.
    destruct (Ascii.eqb a ".").
    + exists "", (w :: ws). reflexivity.
    + exists (String a w), ws. reflexivity.
  - rewrite IH. destruct (Ascii.eqb a ".").
    + exists "", []. reflexivity.
    + reflexivity.
Qed.

Lemma contains_after_last_dot (s : string) :
  PyStr.contains "." s =
  match after_last_dot s with Some _ => true | None => false end.
Proof.
  induction s as [|a rest IH]; cbn [after_last_dot PyStr.contains]; [reflexivity|].
  rewrite IH. destruct (after_last_dot rest); destruct (Ascii.eqb a "."); reflexivity.
Qed.

Lemma last_snoc (w : string) (ws : list string) (e : string) :
  PyStr.item_last (w :: ws ++ [e]) = e.
Proof.
  unfold PyStr.item_last. change (w :: ws ++ [e]) with ((w :: ws) ++ [e]).
  apply last_last.
Qed.

Lemma item_last_split (s : string) :
  PyStr.item_last (PyStr.split "." s) =
  match after_last_dot s with Some e => e | None => s end.
Proof.
  pose proof (split_after_last_dot s) as H.
  destruct (after_last_dot s) as [e|].
  - destruct H as (w & ws & ->). apply last_snoc.
  - rewrite H. reflexivity.
Qed.

Lemma lower_char_dot (a : ascii) :
  Ascii.eqb (PyStr.lower_char a) "." = Ascii.eqb a ".".
Proof.
  destruct a as [[] [] [] [] [] [] [] []]; reflexivity.
Qed.

Lemma after_last_dot_lower (s : string) :
  after_last_dot (PyStr.lower s) = lower_extension s.
Proof.
  unfold lower_extension.
  induction s as [|a rest IH]; cbn [after_last_dot PyStr.lower]; [reflexivity|].
  rewrite IH, lower_char_dot.
  destruct (after_last_dot rest); cbn; [reflexivity|].
  destruct (Ascii.eqb a "."); reflexivity.
Qed.

Lemma mem_In (x : string) (S : list string) :
  PyStr.mem x S = true <-> In x S.
Proof.
  unfold PyStr.mem. rewrite existsb_exists. split.
  - intros (y & Hy & E). apply String.eqb_eq in E. now subst.
  - intros H. exists x. split; [exact H | apply String.eqb_refl].
Qed.

(** What line 53 decides: Photo exactly when every name that has a ['.'] has
    a photo extension; a name without ['.'] is passed over. *)
Lemma determine_mode_Photo (files : list string) :
  determine_mode files = Photo <->
  forall f, In f files ->
    match lower_extension f with
    | Some e => In e PHOTO_EXTENSIONS
    | None => True
    end.
Proof.
  unfold determine_mode.
  match goal with |- context [forallb ?p ?l] => destruct (forallb p l) eqn:E end.
  - split; [intros _ | reflexivity].
    rewrite forallb_forall in E. intros f Hf.
    pose proof (after_last_dot_lower f) as HL.
    destruct (lower_extension f) as [e|] eqn:Le; [|exact I].
    assert (Hc : PyStr.contains "." f = true).
    { rewrite contains_after_last_dot. unfold lower_extension in Le.
      destruct (after_last_dot f); [reflexivity | discriminate]. }
    specialize (E f). rewrite filter_In in E. specialize (E (conj Hf Hc)).
    rewrite item_last_split, HL in E. apply mem_In in E. exact E.
  - split; [discriminate|]. intros H. exfalso.
    assert (F : forallb
       (fun f => PyStr.mem (PyStr.item_last (PyStr.split "." (PyStr.lower f)))
                           PHOTO_EXTENSIONS)
       (filter (PyStr.contains ".") files) = true); [|congruence].
    apply forallb_forall. intros f Hf. apply filter_In in Hf as [Hf Hc].
    specialize (H f Hf). rewrite item_last_split, after_last_dot_lower.
    rewrite contains_after_last_dot in Hc. unfold lower_extension in *.
    destruct (after_last_dot f); [|discriminate]. cbn [option_map] in *.
    apply mem_In. exact H.
Qed.

(** On names that all have a ['.'], line 53 decides as the specification
    says. *)
Lemma determine_mode_dotted (files : list string) :
  (forall f, In f files -> PyStr.contains "." f = true) ->
  (determine_mode files = Photo <->
   forall f, In f files ->
     exists e, lower_extension f = Some e /\ In e PHOTO_EXTENSIONS).
Proof.
  intros Hdot. rewrite determine_mode_Photo. split; intros H f Hf.
  - specialize (H f Hf). specialize (Hdot f Hf).
    rewrite contains_after_last_dot in Hdot. unfold lower_extension in *.
    destruct (after_last_dot f) as [e|]; [|discriminate]. cbn [option_map] in *.
    exists (PyStr.lower e). auto.
  - destruct (H f Hf) as (e & -> & He). exact He.
Qed.

Lemma default_ext_spec (filename : string) :
  default_ext filename =
  match after_last_dot filename with Some e => e | None => NO_EXTENSION end.
Proof.
  unfold default_ext. rewrite contains_after_last_dot, item_last_split.
  destruct (after_last_dot filename); reflexivity.
Qed.

(** ** Rounding to binary64 *)

Section Rounding.

Import Float64.
Local Open Scope Q_scope.

Lemma pow2_pos (e : Z) : 0 < 2 ^ e.
Proof. apply Qpower_0_lt. reflexivity. Qed.

Lemma pow2_add (a b : Z) : 2 ^ (a + b) == 2 ^ a * 2 ^ b.
Proof. apply Qpower_plus. discriminate. Qed.

Lemma pow2_le (a b : Z) : (a <= b)%Z -> 2 ^ a <= 2 ^ b.
Proof. intros H. apply Qpower_le_compat_l; [exact H | discriminate]. Qed.

Lemma pow2_inject (k : Z) : (0 <= k)%Z -> 2 ^ k == inject_Z (2 ^ k).
Proof. intros H. symmetry. apply (Zpower_Qpower 2 k H). Qed.

Lemma rne_floor_cases (x : Q) :
  let f := Qfloor x in
  (x - inject_Z f < 1 # 2 /\ rne x = f) \/
  (1 # 2 < x - inject_Z f /\ rne x = (f + 1)%Z) \/
  (x - inject_Z f == 1 # 2 /\ rne x = if Z.even f then f else (f + 1)%Z).
Proof.
  unfold rne. cbv zeta.
  destruct (Qcompare_spec (x - inject_Z (Qfloor x)) (1 # 2)) as [H|H|H]; auto.
Qed.

Lemma floor_bounds (x : Q) :
  inject_Z (Qfloor x) <= x /\ x < inject_Z (Qfloor x) + 1.
Proof.
  split; [apply Qfloor_le|].
  generalize (Qlt_floor x). rewrite inject_Z_plus. auto.
Qed.

Lemma rne_le (x y : Q) : x <= y -> (rne x <= rne y)%Z.
Proof.
  intros Hxy.
  pose proof (Qfloor_resp_le x y Hxy) as Hf.
  pose proof (floor_bounds x) as [Hx1 Hx2].
  pose proof (floor_bounds y) as [Hy1 Hy2].
  destruct (Z.eq_dec (Qfloor x) (Qfloor y)) as [E|NE].
  - destruct (rne_floor_cases x) as [[Hx ->]|[[Hx ->]|[Hx ->]]];
    destruct (rne_floor_cases y) as [[Hy ->]|[[Hy ->]|[Hy ->]]];
    rewrite <- ?E in *; try (destruct (Z.even (Qfloor x))); try lia; exfalso; lra.
  - assert (Hlt : (Qfloor x + 1 <= Qfloor y)%Z) by lia.
    assert (Hrx : (rne x <= Qfloor x + 1)%Z).
    { destruct (rne_floor_cases x) as [[_ ->]|[[_ ->]|[_ ->]]];
        try destruct (Z.even _); lia. }
    assert (Hry : (Qfloor y <= rne y)%Z).
    { destruct (rne_floor_cases y) as [[_ ->]|[[_ ->]|[_ ->]]];
        try destruct (Z.even _); lia. }
    lia.
Qed.

Lemma rne_inject (z : Z) : rne (inject_Z z) = z.
Proof.
  destruct (rne_floor_cases (inject_Z z)) as [[H ->]|[[H ->]|[H ->]]];
    rewrite Qfloor_Z in *; try reflexivity; exfalso; lra.
Qed.

Lemma log2_bounds_Q (n : Z) :
  (0 < n)%Z ->
  2 ^ Z.log2 n <= inject_Z n /\ inject_Z n < 2 * 2 ^ Z.log2 n.
Proof.
  intros Hn. destruct (Z.log2_spec n Hn) as [H1 H2].
  pose proof (Z.log2_nonneg n) as H0.
  rewrite (pow2_inject _ H0).
  split.
  - rewrite <- Zle_Qle. exact H1.
  - replace (Z.succ (Z.log2 n)) with (1 + Z.log2 n)%Z in H2 by lia.
    rewrite Z.pow_add_r in H2 by lia. change (2 ^ 1)%Z with 2%Z in H2.
    rewrite Zlt_Qlt in H2. rewrite inject_Z_mult in H2. exact H2.
Qed.

Lemma mag_spec (x : Q) :
  0 < x -> 2 ^ (mag x - 1) <= x /\ x < 2 ^ mag x.
Proof.
  intros Hx. unfold mag.
  destruct x as [n d]. cbn [Qnum Qden].
  assert (Hn : (0 < n)%Z).
  { unfold Qlt in Hx. cbn in Hx. lia. }
  rewrite (Z.abs_eq n) by lia.
  set (ln := Z.log2 n). set (ld := Z.log2 (Z.pos d)).
  destruct (log2_bounds_Q n Hn) as [N1 N2]. fold ln in N1, N2.
  destruct (log2_bounds_Q (Z.pos d) eq_refl) as [D1 D2]. fold ld in D1, D2.
  assert (HE : 2 ^ ln == 2 ^ (ln - ld) * 2 ^ ld).
  { rewrite <- pow2_add. apply Qpower_comp; [reflexivity | lia]. }
  assert (Hxd : (n # d) * inject_Z (Z.pos d) == inject_Z n).
  { rewrite (Qmake_Qdiv n d). field. discriminate. }
  assert (Habs : Qabs (n # d) == n # d) by (apply Qabs_pos; lra).
  pose proof (pow2_pos (ln - ld)) as PE.
  pose proof (pow2_pos ld) as PB.
  assert (Hhalf : forall e, 2 ^ e == 2 * 2 ^ (e - 1)).
  { intros e. change 2 with (2 ^ 1) at 2. rewrite <- pow2_add.
    apply Qpower_comp; [reflexivity | lia]. }
  set (X := n # d) in *. set (N := inject_Z n) in *.
  set (D := inject_Z (Z.pos d)) in *.
  set (E := 2 ^ (ln - ld)) in *. set (PA := 2 ^ ln) in *.
  set (PBv := 2 ^ ld) in *.
  assert (Hup : X < 2 * E).
  { apply Qnot_le_lt. intros C. nra. }
  assert (Hlo : E < 2 * X).
  { apply Qnot_le_lt. intros C. nra. }
  destruct (Qle_bool E (Qabs X)) eqn:B.
  - apply Qle_bool_iff in B. rewrite Habs in B.
    replace (ln - ld + 1 - 1)%Z with (ln - ld)%Z by lia.
    split; [exact B|].
    rewrite (Hhalf (ln - ld + 1)%Z).
    replace (ln - ld + 1 - 1)%Z with (ln - ld)%Z by lia. exact Hup.
  - assert (B' : ~ E <= Qabs X).
    { intros C. apply Qle_bool_iff in C. congruence. }
    rewrite Habs in B'. apply Qnot_le_lt in B'.
    split; [|exact B'].
    pose proof (Hhalf (ln - ld)%Z) as HH. fold E in HH.
    set (E' := 2 ^ (ln - ld - 1)) in *. lra.
Qed.

Lemma mag_le (x y : Q) : 0 < x -> x <= y -> (mag x <= mag y)%Z.
Proof.
  intros Hx Hxy.
  destruct (mag_spec x Hx) as [X1 _].
  assert (Hy : 0 < y) by lra.
  destruct (mag_spec y Hy) as [_ Y2].
  assert (H : 2 ^ (mag x - 1) < 2 ^ mag y) by lra.
  apply Qpower_lt_compat_l_inv in H; [lia | reflexivity].
Qed.

Lemma cexp_le (x y : Q) : 0 < x -> x <= y -> (cexp x <= cexp y)%Z.
Proof.
  intros Hx Hxy. unfold cexp. pose proof (mag_le x y Hx Hxy). lia.
Qed.

Lemma RN_pos_eq (x : Q) :
  0 < x -> RN x = inject_Z (rne (x / 2 ^ cexp x)) * 2 ^ cexp x.
Proof.
  intros Hx. unfold RN.
  destruct (Qeq_bool x 0) eqn:E; [|reflexivity].
  apply Qeq_bool_eq in E. lra.
Qed.

Lemma scaled_pow2 (a c : Z) : 2 ^ a / 2 ^ c == 2 ^ (a - c).
Proof.
  pose proof (pow2_pos c) as Pc.
  assert (H : 2 ^ a == 2 ^ (a - c) * 2 ^ c).
  { rewrite <- pow2_add. apply Qpower_comp; [reflexivity | lia]. }
  rewrite H. field. lra.
Qed.

Lemma div_le_pos (x y z : Q) : 0 < z -> x <= y -> x / z <= y / z.
Proof.
  intros Hz Hxy. unfold Qdiv. apply Qmult_le_compat_r; [exact Hxy|].
  apply Qlt_le_weak, Qinv_lt_0_compat, Hz.
Qed.

(** Below a power of two that the grid of [x] contains, the rounding of [x]
    stays below it. *)
Lemma RN_below_pow2 (x : Q) (k : Z) :
  0 < x -> x <= 2 ^ k -> (cexp x <= k)%Z -> RN x <= 2 ^ k.
Proof.
  intros Hx Hk Hc. rewrite (RN_pos_eq x Hx).
  set (c := cexp x) in *. pose proof (pow2_pos c) as Pc.
  assert (Hs : x / 2 ^ c <= inject_Z (2 ^ (k - c))).
  { rewrite <- pow2_inject by lia. rewrite <- scaled_pow2.
    apply div_le_pos; assumption. }
  apply rne_le in Hs. rewrite rne_inject in Hs.
  rewrite Zle_Qle in Hs. rewrite <- pow2_inject in Hs by lia.
  assert (Hk2 : 2 ^ k == 2 ^ (k - c) * 2 ^ c).
  { rewrite <- pow2_add. apply Qpower_comp; [reflexivity | lia]. }
  rewrite Hk2. apply Qmult_le_compat_r; [exact Hs | lra].
Qed.

Lemma RN_above_pow2 (x : Q) (k : Z) :
  0 < x -> 2 ^ k <= x -> (cexp x <= k)%Z -> 2 ^ k <= RN x.
Proof.
  intros Hx Hk Hc. rewrite (RN_pos_eq x Hx).
  set (c := cexp x) in *. pose proof (pow2_pos c) as Pc.
  assert (Hs : inject_Z (2 ^ (k - c)) <= x / 2 ^ c).
  { rewrite <- pow2_inject by lia. rewrite <- scaled_pow2.
    apply div_le_pos; assumption. }
  apply rne_le in Hs. rewrite rne_inject in Hs.
  rewrite Zle_Qle in Hs. rewrite <- pow2_inject in Hs by lia.
  assert (Hk2 : 2 ^ k == 2 ^ (k - c) * 2 ^ c).
  { rewrite <- pow2_add. apply Qpower_comp; [reflexivity | lia]. }
  rewrite Hk2. apply Qmult_le_compat_r; [exact Hs | lra].
Qed.

Lemma RN_le_pos (x y : Q) : 0 < x -> x <= y -> RN x <= RN y.
Proof.
  intros Hx Hxy. assert (Hy : 0 < y) by lra.
  pose proof (cexp_le x y Hx Hxy) as Hc.
  destruct (Z.eq_dec (cexp x) (cexp y)) as [E|NE].
  - rewrite (RN_pos_eq x Hx), (RN_pos_eq y Hy), E.
    pose proof (pow2_pos (cexp y)) as Pc.
    apply Qmult_le_compat_r; [|lra].
    rewrite <- Zle_Qle. apply rne_le. apply div_le_pos; assumption.
  - assert (Hlt : (cexp x < cexp y)%Z) by lia.
    assert (Hmy : cexp y = (mag y - prec)%Z).
    { unfold cexp in *. lia. }
    assert (Hmx : (mag x <= mag y - 1)%Z).
    { unfold cexp in *. lia. }
    destruct (mag_spec x Hx) as [_ X2].
    destruct (mag_spec y Hy) as [Y1 _].
    pose proof (pow2_le (mag x) (mag y - 1) Hmx) as P.
    apply Qle_trans with (2 ^ (mag y - 1)).
    + apply RN_below_pow2; [exact Hx | lra |]. unfold prec in *. lia.
    + apply RN_above_pow2; [exact Hy | exact Y1 |]. unfold prec in *. lia.
Qed.

Lemma RN_zero (x : Q) : x == 0 -> RN x = 0.
Proof.
  intros H. unfold RN. now rewrite (Qeq_eq_bool _ _ H).
Qed.

Lemma RN_nonneg (x : Q) : 0 <= x -> 0 <= RN x.
Proof.
  intros Hx. destruct (Qeq_bool x 0) eqn:E.
  - apply Qeq_bool_eq in E. rewrite (RN_zero x E). lra.
  - apply Qeq_bool_neq in E. assert (Hp : 0 < x) by lra.
    rewrite (RN_pos_eq x Hp). pose proof (pow2_pos (cexp x)) as Pc.
    apply Qmult_le_0_compat; [|lra].
    change 0 with (inject_Z 0). rewrite <- Zle_Qle.
    rewrite <- (rne_inject 0). apply rne_le.
    change (inject_Z 0) with 0. apply Qle_shift_div_l; lra.
Qed.

Lemma RN_le (x y : Q) : 0 <= x -> x <= y -> RN x <= RN y.
Proof.
  intros Hx Hxy. destruct (Qeq_bool x 0) eqn:E.
  - apply Qeq_bool_eq in E. rewrite (RN_zero x E). apply RN_nonneg. lra.
  - apply Qeq_bool_neq in E. apply RN_le_pos; lra.
Qed.

Lemma RN_comp (x y : Q) : 0 <= x -> x == y -> RN x == RN y.
Proof.
  intros Hx E. apply Qle_antisym; apply RN_le; lra.
Qed.

Lemma RN_one : RN 1 == 1.
Proof. vm_compute. reflexivity. Qed.

Lemma of_int_100 : of_int 100 == 100.
Proof. vm_compute. reflexivity. Qed.

Lemma RN_100 : RN 100 == 100.
Proof. vm_compute. reflexivity. Qed.

Lemma to_int_nonneg (x : Q) : 0 <= x -> to_int x = Qfloor x.
Proof.
  intros H. unfold to_int. apply Qle_bool_iff in H. now rewrite H.
Qed.

Lemma quotient_le (p q t : Z) :
  (0 <= p <= q)%Z -> (0 < t)%Z ->
  0 <= inject_Z p / inject_Z t /\ inject_Z p / inject_Z t <= inject_Z q / inject_Z t.
Proof.
  intros [Hp Hpq] Ht.
  rewrite Zle_Qle in Hp, Hpq. rewrite Zlt_Qlt in Ht.
  change (inject_Z 0) with 0 in *.
  split.
  - apply Qle_shift_div_l; lra.
  - apply div_le_pos; assumption.
Qed.


Lemma scaled_le (p q t : Z) :
  (0 <= p <= q)%Z -> (0 < t)%Z -> 0 <= scaled p t /\ scaled p t <= scaled q t.
Proof.
  intros Hpq Ht. destruct (quotient_le p q t Hpq Ht) as [H0 H1].
  unfold scaled, mul, true_div.
  pose proof (RN_nonneg _ H0) as R0.
  pose proof (RN_le _ _ H0 H1) as R1.
  pose proof of_int_100 as C.
  assert (M0 : 0 <= RN (inject_Z p / inject_Z t) * of_int 100).
  { rewrite C. lra. }
  split.
  - apply RN_nonneg. exact M0.
  - apply RN_le; [exact M0|]. rewrite C. lra.
Qed.

Lemma scaled_full (t : Z) : (0 < t)%Z -> scaled t t == 100.
Proof.
  intros Ht. unfold scaled, mul, true_div.
  assert (Hq : inject_Z t / inject_Z t == 1).
  { rewrite Zlt_Qlt in Ht. change (inject_Z 0) with 0 in Ht. field. lra. }
  assert (H1 : RN (inject_Z t / inject_Z t) == 1).
  { rewrite <- RN_one. apply RN_comp; [lra | exact Hq]. }
  apply Qeq_trans with (RN 100); [|exact RN_100].
  apply RN_comp; rewrite H1, of_int_100; lra.
Qed.

Lemma progress_le (p q t : Z) :
  (0 <= p <= q)%Z -> (0 < t)%Z -> (progress p t <= progress q t)%Z.
Proof.
  intros Hpq Ht. destruct (scaled_le p q t Hpq Ht) as [H0 H1].
  unfold progress. fold (scaled p t). fold (scaled q t).
  rewrite !to_int_nonneg by lra. apply Qfloor_resp_le, H1.
Qed.

Lemma progress_full (t : Z) : (0 < t)%Z -> progress t t = 100%Z.
Proof.
  intros Ht. pose proof (scaled_full t Ht) as H.
  unfold progress. fold (scaled t t).
  rewrite to_int_nonneg by lra.
  rewrite (Qfloor_comp _ _ H). reflexivity.
Qed.

Lemma progress_bounds (p t : Z) :
  (0 <= p <= t)%Z -> (0 < t)%Z -> (0 <= progress p t <= 100)%Z.
Proof.
  intros Hp Ht. split.
  - destruct (scaled_le p p t ltac:(lia) Ht) as [H0 _].
    unfold progress. fold (scaled p t). rewrite to_int_nonneg by lra.
    change 0%Z with (Qfloor 0). apply Qfloor_resp_le, H0.
  - rewrite <- (progress_full t Ht). apply progress_le; lia.
Qed.

End Rounding.

(** ** The relocation loop *)

Lemma progress_values_app (a b : list event) :
  progress_values (a ++ b) = progress_values a ++ progress_values b.
Proof.
  induction a as [|[t|v|] a IH]; cbn; rewrite ?IH; reflexivity.
Qed.

Lemma completions_app (a b : list event) :
  completions (a ++ b) = (completions a + completions b)%nat.
Proof.
  induction a as [|[t|v|] a IH]; cbn; rewrite ?IH; reflexivity.
Qed.

Lemma moves_attempted_app (a b : list oscall) :
  moves_attempted (a ++ b) = moves_attempted a ++ moves_attempted b.
Proof.
  induction a as [|[p|s d m] a IH]; cbn; rewrite ?IH; reflexivity.
Qed.

Lemma moves_done_app (a b : list oscall) :
  moves_done (a ++ b) = moves_done a ++ moves_done b.
Proof.
  induction a as [|[p|s d [|]] a IH]; cbn; rewrite ?IH; reflexivity.
Qed.

Section RelocatorFacts.

Context {world : Type} {os : OS world}.

Lemma process_file_iteration dir mode total w done filename :
  iteration dir mode total w done filename
    (process_file dir mode total w done filename).
Proof.
  unfold process_file.
  destruct (target_dir w dir mode filename) as [tdir|e] eqn:T;
    [|now constructor].
  destruct (ensure_dir w tdir) as [[[w1 ev1] c1]|e] eqn:E;
    [|now constructor].
  destruct (move w1 _ _) as [w2 failure] eqn:M.
  pose proof E as E'. unfold ensure_dir in E'.
  destruct (path_exists w tdir).
  - injection E' as <- <- <-. eapply iteration_moves; eauto.
  - destruct (makedirs w tdir) as [w'|e']; cbn in E'; [|discriminate].
    injection E' as <- <- <-. eapply iteration_moves; eauto.
Qed.

Lemma percentages_shift (done total : Z) (n : nat) :
  progress (done + 1) total
    :: map (fun i => progress (done + 1 + Z.of_nat i) total) (seq 1 n)
  = map (fun i => progress (done + Z.of_nat i) total) (seq 1 (S n)).
Proof.
  cbn [seq map]. f_equal.
  rewrite <- (seq_shift n 1), map_map. apply map_ext. intros i. f_equal. lia.
Qed.

(** The trace of the loop: with [n] files gone through, it has emitted the
    percentages of [done + 1 .. done + n], attempted the moves of the first
    [n] files, and no completion signal. *)
Lemma loop_trace stop_arrives dir mode total files :
  forall self w done,
    let o := loop stop_arrives dir mode total files self w done in
    exists n : nat,
      (n <= List.length files)%nat /\
      processed o = (done + Z.of_nat n)%Z /\
      progress_values (events o)
        = map (fun i => progress (done + Z.of_nat i) total) (seq 1 n) /\
      completions (events o) = 0%nat /\
      moves_attempted (calls o) = map (PyPath.join dir) (firstn n files) /\
      (how o = Exhausted -> n = List.length files) /\
      how o <> NoFiles.
Proof.
  induction files as [|filename rest IH]; intros self w done; cbn [loop].
  - exists 0%nat. cbn. repeat split; try lia; try discriminate.
  - destruct (negb (_is_running _)).
    + exists 0%nat. cbn. repeat split; try lia; discriminate.
    + destruct (process_file_iteration dir mode total w done filename)
        as [e cs Hcs | tdir w1 ev1 c1 w2 failure T E P1 C1 M1 M].
      * exists 0%nat. cbn. repeat split; try lia; try discriminate. exact Hcs.
      * match goal with |- context [loop ?s ?d ?m ?t rest ?sf ?ww ?dd] =>
          destruct (IH sf ww dd) as (n & Hn & Hp & Hv & Hc & Hm & Hx & Hnf) end.
        exists (S n). cbn [events calls final processed how List.length firstn map].
        repeat split.
        -- lia.
        -- rewrite Hp. lia.
        -- rewrite !progress_values_app, P1, Hv. cbn [app progress_values move_log].
           destruct failure; cbn [progress_values]; apply percentages_shift.
        -- rewrite !completions_app, C1, Hc. destruct failure; reflexivity.
        -- rewrite !moves_attempted_app, M1, Hm. reflexivity.
        -- intros H. now rewrite (Hx H).
        -- exact Hnf.
Qed.

Lemma run_empty stop_arrives self w :
  listing self w = [] ->
  run stop_arrives self w =
  {| events := [log_update "Нет файлов для организации."; finished_signal];
     calls := []; final := w; processed := 0; how := NoFiles |}.
Proof.
  intros H. unfold run. fold (listing self w). rewrite H. reflexivity.
Qed.

Lemma run_loop stop_arrives self w :
  listing self w <> [] ->
  let files := listing self w in
  let o' := loop stop_arrives (folder self) (determine_mode files)
              (Z.of_nat (List.length files)) files self w 0 in
  let o := run stop_arrives self w in
  events o = log_update (mode_message (determine_mode files))
               :: events o' ++ epilogue (how o') /\
  calls o = calls o' /\ final o = final o' /\
  processed o = processed o' /\ how o = how o'.
Proof.
  intros H files o' o. subst o o' files. unfold run. fold (listing self w).
  destruct (listing self w) as [|f l]; [contradiction|].
  destruct (Z.eqb_spec (Z.of_nat (List.length (f :: l))) 0) as [E|_].
  - cbn [List.length] in E. lia.
  - match goal with |- context [how ?x] => destruct (how x) eqn:X end;
      cbn; rewrite ?X, ?app_nil_r; auto.
Qed.

Lemma percentages_sorted (total : Z) (n : nat) :
  (0 < total)%Z ->
  StronglySorted Z.le
    (map (fun i => progress (0 + Z.of_nat i) total) (seq 1 n)).
Proof.
  intros Ht. generalize 1%nat as a.
  induction n as [|n IH]; intros a; cbn [seq map]; constructor.
  - apply IH.
  - apply Forall_forall. intros v Hv. apply in_map_iff in Hv as (i & <- & Hi).
    apply in_seq in Hi. apply progress_le; lia.
Qed.

Lemma percentages_bounded (total : Z) (n : nat) :
  (Z.of_nat n <= total)%Z ->
  Forall (fun v => 0 <= v <= 100)%Z
    (map (fun i => progress (0 + Z.of_nat i) total) (seq 1 n)).
Proof.
  intros Hn. apply Forall_forall. intros v Hv.
  apply in_map_iff in Hv as (i & <- & Hi). apply in_seq in Hi.
  apply progress_bounds; lia.
Qed.

Lemma percentages_last (total : Z) (n : nat) :
  (0 < n)%nat ->
  List.last (map (fun i => progress (0 + Z.of_nat i) total) (seq 1 n)) 0%Z
  = progress (Z.of_nat n) total.
Proof.
  intros Hn. destruct n as [|m]; [lia|].
  rewrite seq_S, map_app. cbn [map]. rewrite last_last. f_equal.
Qed.

Lemma run_progress_values stop_arrives self w :
  let o := run stop_arrives self w in
  let total := Z.of_nat (List.length (listing self w)) in
  exists n : nat,
    (n <= List.length (listing self w))%nat /\
    processed o = Z.of_nat n /\
    progress_values (events o)
      = map (fun i => progress (0 + Z.of_nat i) total) (seq 1 n) /\
    (how o = Exhausted ->
       n = List.length (listing self w) /\ listing self w <> []).
Proof.
  intros o total. subst o.
  destruct (listing self w) as [|f l] eqn:L.
  - rewrite (run_empty _ _ _ L). exists 0%nat. cbn.
    repeat split; try lia; discriminate.
  - assert (NE : listing self w <> []) by (rewrite L; discriminate).
    destruct (run_loop stop_arrives self w NE) as (He & _ & _ & Hp & Hh).
    rewrite L in He, Hp, Hh.
    destruct (loop_trace stop_arrives (folder self)
                (determine_mode (f :: l)) (Z.of_nat (List.length (f :: l)))
                (f :: l) self w 0)
      as (n & Hn & Hpr & Hv & _ & _ & Hx & _).
    exists n. rewrite He, Hp, Hh. repeat split.
    + exact Hn.
    + rewrite Hpr. lia.
    + cbn [progress_values]. rewrite progress_values_app, Hv.
      subst total.
      match goal with |- context [epilogue ?x] => destruct x end;
        cbn; rewrite app_nil_r; reflexivity.
    + auto.
    + discriminate.
Qed.

(** The progress values of a run are the percentages of [1 .. processed],
    in this order; they never decrease and lie between 0 and 100; at the end
    of the loop every file has been processed and the value is 100. *)
Lemma run_percentages stop_arrives self w :
  let o := run stop_arrives self w in
  let total := Z.of_nat (List.length (listing self w)) in
  progress_values (events o)
    = map (fun i => progress (Z.of_nat i) total)
          (seq 1 (Z.to_nat (processed o))) /\
  StronglySorted Z.le (progress_values (events o)) /\
  Forall (fun v => 0 <= v <= 100)%Z (progress_values (events o)) /\
  (how o = Exhausted ->
     List.last (progress_values (events o)) 0%Z = 100%Z /\
     processed o = total).
Proof.
  intros o total.
  destruct (run_progress_values stop_arrives self w)
    as (n & Hn & Hp & Hv & Hx).
  fold o in Hp, Hv, Hx. fold total in Hv. rewrite Hv.
  destruct n as [|m].
  - refine (conj _ (conj _ (conj _ _))).
    + rewrite Hp. reflexivity.
    + constructor.
    + constructor.
    + intros H. destruct (Hx H) as [E NE]. destruct (listing self w);
        [contradiction | discriminate].
  - assert (Ht : (0 < total)%Z) by (subst total; lia).
    refine (conj _ (conj _ (conj _ _))).
    + rewrite Hp, Nat2Z.id. apply map_ext. intros i. reflexivity.
    + apply percentages_sorted, Ht.
    + apply percentages_bounded. subst total. lia.
    + intros H. destruct (Hx H) as [E _]. split.
      * rewrite percentages_last by lia. rewrite E. fold total.
        apply progress_full, Ht.
      * rewrite Hp, E. reflexivity.
Qed.

Lemma last_two {A : Type} (l : list A) (c d x : A) :
  List.last (l ++ [c; d]) x = d.
Proof.
  replace (l ++ [c; d]) with ((l ++ [c]) ++ [d])
    by (rewrite <- app_assoc; reflexivity).
  apply last_last.
Qed.

(** A run that returns (no file, natural completion or cancellation)
    emits the completion signal exactly once, as its last event; with no
    file the events are the notice and the completion signal, nothing
    else. *)
Lemma completion_of_returning_runs stop_arrives self w :
  let o := run stop_arrives self w in
  ((forall e, how o <> Uncaught e) ->
     completions (events o) = 1%nat /\
     List.last (events o) (log_update "") = finished_signal) /\
  (listing self w = [] ->
     events o = [log_update "Нет файлов для организации."; finished_signal]
     /\ how o = NoFiles).
Proof.
  intros o. subst o. split.
  - intros Hret. destruct (listing self w) as [|f l] eqn:L.
    + rewrite (run_empty _ _ _ L). split; reflexivity.
    + assert (NE : listing self w <> []) by (rewrite L; discriminate).
      destruct (run_loop stop_arrives self w NE) as (He & _ & _ & _ & Hh).
      rewrite L in He, Hh.
      destruct (loop_trace stop_arrives (folder self)
                  (determine_mode (f :: l)) (Z.of_nat (List.length (f :: l)))
                  (f :: l) self w 0)
        as (n & _ & _ & _ & Hc & _ & _ & _).
      rewrite He. rewrite <- Hh.
      destruct (how (run stop_arrives self w)) as [| | |e] eqn:X;
        try (exfalso; apply (Hret e); reflexivity);
        cbn [epilogue completions]; rewrite completions_app, Hc; split;
        try reflexivity;
        rewrite app_comm_cons; apply last_two.
  - intros L. rewrite (run_empty _ _ _ L). split; reflexivity.
Qed.

(** C9. On a folder whose entries are all subfolders, a run lists no
    regular file, calls nothing that changes the file system, leaves it as it
    is and emits the zero-files notice and the completion signal only. *)
Theorem organized_folder_only_notice stop_arrives self w :
  (forall name, In name (listdir w (folder self)) ->
     isfile w (PyPath.join (folder self) name) = false) ->
  listing self w = [] /\
  run stop_arrives self w =
  {| events := [log_update "Нет файлов для организации."; finished_signal];
     calls := []; final := w; processed := 0; how := NoFiles |}.
Proof.
  intros H.
  assert (L : listing self w = []).
  { unfold listing. induction (listdir w (folder self)) as [|a l IH];
      [reflexivity|]. cbn [filter]. rewrite (H a) by (left; reflexivity).
    apply IH. intros name Hn. apply H. right. exact Hn. }
  split; [exact L | apply run_empty, L].
Qed.

Lemma scan_exif_find (items : exif_dict) :
  scan_exif items =
  option_map (fun kv => split_year (snd kv))
             (find (fun kv => is_DateTimeOriginal (fst kv)) items).
Proof.
  induction items as [|[tag value] rest IH]; cbn [scan_exif find fst];
    [reflexivity|].
  destruct (is_DateTimeOriginal tag); [reflexivity | exact IH].
Qed.

Lemma item_first_split (s : string) :
  PyStr.item_first (PyStr.split ":" s) = before_colon s.
Proof.
  induction s as [|a rest IH]; cbn [PyStr.split before_colon]; [reflexivity|].
  destruct (Ascii.eqb a ":"); [reflexivity|].
  destruct (PyStr.split ":" rest) as [|x xs] eqn:E.
  - now apply split_not_nil in E.
  - cbn in *. now rewrite IH.
Qed.

(** [get_image_year] by cases on the capture date. *)
Lemma get_image_year_spec w filepath :
  get_image_year w filepath =
  match capture_date w filepath with
  | Some v => Ok (before_colon v)
  | None => t <- getmtime w filepath ;; strftime_Y t
  end.
Proof.
  unfold get_image_year, try_exif, capture_date.
  destruct (getexif w filepath) as [[items|]|e]; try reflexivity.
  rewrite scan_exif_find.
  destruct items as [|i items]; [reflexivity|].
  destruct (find _ (i :: items)) as [[tag [v|b|n]]|]; cbn;
    rewrite ?item_first_split; reflexivity.
Qed.

Lemma metadata_read_fails_no_date w filepath :
  metadata_read_fails w filepath -> capture_date w filepath = None.
Proof.
  unfold metadata_read_fails, capture_date.
  intros [(e & ->) | (items & e & -> & H)]; [reflexivity|].
  rewrite scan_exif_find in H.
  destruct (find _ items) as [[tag [v|b|n]]|]; cbn in H;
    try reflexivity; discriminate.
Qed.

Lemma digit_not_colon (a : ascii) :
  is_digit a = true -> Ascii.eqb a ":" = false.
Proof.
  destruct a as [[] [] [] [] [] [] [] []]; cbn; intros H;
    try reflexivity; discriminate.
Qed.

Lemma exif_form_year (v : string) :
  exif_form v = true ->
  before_colon v = four_char_prefix v /\ is_year4 (before_colon v) = true.
Proof.
  unfold exif_form, four_char_prefix.
  destruct v as [|a [|b [|c [|d [|e rest]]]]]; cbn [String.substring String.get];
    try (rewrite andb_false_r; discriminate);
    try (intros H; apply andb_true_iff in H as [H _]; discriminate).
  intros H. apply andb_true_iff in H as [Hy Hc].
  pose proof Hy as Hy'. unfold is_year4 in Hy'. cbn in Hy'.
  repeat (apply andb_true_iff in Hy' as [? Hy']).
  repeat match goal with
         | H : _ && _ = true |- _ => apply andb_true_iff in H as [? ?]
         end.
  assert (E : before_colon (String a (String b (String c (String d (String e rest)))))
              = String a (String b (String c (String d "")))).
  { cbn [before_colon]. rewrite !digit_not_colon by assumption.
    now rewrite Hc. }
  rewrite E. split; [reflexivity | exact Hy].
Qed.

(** C5, amended. On a path that names an existing regular file whose
    modification time [datetime] can convert, [get_image_year] raises
    nothing and returns a year; whenever the metadata cannot be read
    (opening the image or reading its table raises, or the value of the
    field is not text) the function is the fallback of line 32: it returns
    the year of the modification time, or lets through what the conversion
    of that time raises. *)
Theorem get_image_year_raises_on_mtime_only w filepath :
  isfile w filepath = true ->
  exists t,
    getmtime w filepath = Ok t /\
    (metadata_read_fails w filepath ->
       get_image_year w filepath = strftime_Y t) /\
    (forall y, strftime_Y t = Ok y ->
       exists year,
         get_image_year w filepath = Ok year /\
         (metadata_read_fails w filepath -> year = y)).
Proof.
  intros F. destruct (getmtime_isfile w filepath F) as (t & Ht).
  exists t. split; [exact Ht|]. rewrite get_image_year_spec. split.
  - intros M. rewrite (metadata_read_fails_no_date _ _ M), Ht. reflexivity.
  - intros y Hy. destruct (capture_date w filepath) as [v|] eqn:C.
    + exists (before_colon v). split; [reflexivity|].
      intros M. rewrite (metadata_read_fails_no_date _ _ M) in C.
      discriminate.
    + rewrite Ht. cbn [bind]. rewrite Hy. exists y. auto.
Qed.

(** C3, amended. In Photo mode the destination is the folder
    ["Фотографии " ++ year].  When the capture date is present and readable,
    [year] is what precedes the first [':'] of its value, which is the prefix
    of four digits whenever the value starts as an EXIF date does; when it is
    not, [year] is the [%Y] year of the modification time (and the
    destination is computed whenever that year is). *)
Theorem photo_destination w dir filename :
  let filepath := PyPath.join dir filename in
  (forall v, capture_date w filepath = Some v ->
     target_dir w dir Photo filename
       = Ok (PyPath.join dir ("Фотографии " ++ before_colon v)) /\
     (exif_form v = true ->
        before_colon v = four_char_prefix v /\
        is_year4 (before_colon v) = true)) /\
  (forall t, capture_date w filepath = None ->
     getmtime w filepath = Ok t ->
     target_dir w dir Photo filename
       = (year <- strftime_Y t ;;
          Ok (PyPath.join dir ("Фотографии " ++ year)))).
Proof.
  intros filepath. unfold target_dir. fold filepath.
  rewrite get_image_year_spec. split.
  - intros v ->. split; [reflexivity | apply exif_form_year].
  - intros t -> ->. reflexivity.
Qed.

(** C2, amended. In Default mode the destination is the folder named by the
    substring of the file name after its last ['.'], in the letter case of
    the name, or by the label of the files without ['.']. *)
Theorem default_destination w dir filename :
  target_dir w dir Default filename =
  Ok (PyPath.join dir
        match after_last_dot filename with
        | Some e => e
        | None => NO_EXTENSION
        end).
Proof.
  unfold target_dir. now rewrite default_ext_spec.
Qed.

Lemma loop_step stop_arrives dir mode total filename rest self w done
    tdir w1 ev1 c1 w2 failure :
  stop_arrives (Z.to_nat done) = false ->
  _is_running self = true ->
  target_dir w dir mode filename = Ok tdir ->
  ensure_dir w tdir = Ok (w1, ev1, c1) ->
  move w1 (PyPath.join dir filename) (PyPath.join tdir filename)
    = (w2, failure) ->
  let o := loop stop_arrives dir mode total (filename :: rest) self w done in
  let o' := loop stop_arrives dir mode total rest self w2 (done + 1) in
  events o = (ev1 ++ [move_log filename tdir failure;
                      progress_update (progress (done + 1) total)])
             ++ events o' /\
  calls o = (c1 ++ [call_move (PyPath.join dir filename)
                      (PyPath.join tdir filename) (went_through failure)])
            ++ calls o' /\
  final o = final o' /\ processed o = processed o' /\ how o = how o'.
Proof.
  intros Hs Hr T E M o o'. subst o o'. cbn [loop].
  rewrite Hs, Hr. cbn [negb]. unfold process_file. rewrite T, E, M.
  cbn. auto.
Qed.

(** C6. When the move of a file fails with some reason, the iteration
    emits the error line naming the file and the reason, then the progress,
    and the loop goes on with the remaining files from the state the failed
    move leaves, one more file counted; and a run that reaches the end of the
    loop has attempted the move of every file listed, whatever moves
    failed. *)
Theorem failed_move_logged_run_continues :
  (forall stop_arrives dir mode total filename rest self w done
          tdir w1 ev1 c1 w2 reason,
     stop_arrives (Z.to_nat done) = false ->
     _is_running self = true ->
     target_dir w dir mode filename = Ok tdir ->
     ensure_dir w tdir = Ok (w1, ev1, c1) ->
     move w1 (PyPath.join dir filename) (PyPath.join tdir filename)
       = (w2, Some reason) ->
     let o := loop stop_arrives dir mode total (filename :: rest) self w done in
     let o' := loop stop_arrives dir mode total rest self w2 (done + 1) in
     events o = (ev1 ++ [log_update ("Ошибка с " ++ filename ++ ": " ++ reason);
                         progress_update (progress (done + 1) total)])
                ++ events o' /\
     calls o = (c1 ++ [call_move (PyPath.join dir filename)
                         (PyPath.join tdir filename) false])
               ++ calls o' /\
     final o = final o' /\ processed o = processed o' /\ how o = how o') /\
  (forall stop_arrives self w,
     let o := run stop_arrives self w in
     how o = Exhausted ->
     moves_attempted (calls o)
       = map (PyPath.join (folder self)) (listing self w) /\
     processed o = Z.of_nat (List.length (listing self w))).
Proof.
  split.
  - intros. eapply (loop_step stop_arrives dir mode total filename rest self w
                      done tdir w1 ev1 c1 w2 (Some reason)); eassumption.
  - intros stop_arrives self w o X. subst o.
    destruct (listing self w) as [|f l] eqn:L.
    + rewrite (run_empty _ _ _ L) in X. discriminate.
    + assert (NE : listing self w <> []) by (rewrite L; discriminate).
      destruct (run_loop stop_arrives self w NE) as (_ & Hc & _ & Hp & Hh).
      rewrite L in Hc, Hp, Hh. rewrite Hh in X. rewrite Hc, Hp.
      destruct (loop_trace stop_arrives (folder self)
                  (determine_mode (f :: l)) (Z.of_nat (List.length (f :: l)))
                  (f :: l) self w 0)
        as (n & _ & Hpr & _ & _ & Hm & Hx & _).
      rewrite (Hx X) in Hm, Hpr. rewrite firstn_all in Hm.
      split; [exact Hm | rewrite Hpr; lia].
Qed.

(** The loop stopped once [pre] has gone through does what the loop left
    alone does on [pre], then logs the cancellation. *)
Lemma loop_cancel_at stop_arrives dir mode total rest :
  rest <> [] ->
  forall pre self w done,
    (0 <= done)%Z ->
    _is_running self = true ->
    (forall i, (Z.to_nat done <= i < Z.to_nat done + List.length pre)%nat ->
       stop_arrives i = false) ->
    stop_arrives (Z.to_nat done + List.length pre)%nat = true ->
    let o := loop stop_arrives dir mode total (pre ++ rest) self w done in
    let o' := loop never dir mode total pre self w done in
    calls o = calls o' /\ final o = final o' /\
    processed o = processed o' /\
    ((how o' = Exhausted /\ how o = Cancelled /\
      events o = events o' ++ [log_update "Операция отменена."])
     \/ (exists e, how o' = Uncaught e /\ how o = Uncaught e /\
                   events o = events o')).
Proof.
  intros NE. induction pre as [|f pre IH]; intros self w done Hd Hr Hno Hyes.
  - destruct rest as [|f r]; [contradiction|].
    cbn [app loop List.length] in *. rewrite Nat.add_0_r in Hyes.
    rewrite Hyes. cbn. repeat split. left. repeat split.
  - cbn [app loop List.length] in *.
    rewrite (Hno (Z.to_nat done)) by lia.
    change (never (Z.to_nat done)) with false. cbv iota. rewrite Hr. cbn [negb].
    destruct (process_file_iteration dir mode total w done f)
      as [e cs Hcs | tdir w1 ev1 c1 w2 failure T E P1 C1 M1 M].
    + cbn. repeat split. right. exists e. repeat split.
    + assert (Hd' : (0 <= done + 1)%Z) by lia.
      assert (Hn' : Z.to_nat (done + 1) = S (Z.to_nat done)) by lia.
      specialize (IH self w2 (done + 1)%Z Hd' Hr).
      rewrite Hn' in IH.
      assert (Hno' : forall i,
                 (S (Z.to_nat done) <= i < S (Z.to_nat done) + List.length pre)%nat ->
                 stop_arrives i = false).
      { intros i Hi. apply Hno. lia. }
      assert (Hyes' : stop_arrives (S (Z.to_nat done) + List.length pre)%nat = true).
      { rewrite <- Hyes. f_equal. lia. }
      destruct (IH Hno' Hyes') as (Hc & Hf & Hp & Hh).
      cbn [events calls final processed how].
      rewrite Hc, Hf, Hp. repeat split.
      destruct Hh as [(H1 & H2 & H3) | (e & H1 & H2 & H3)].
      * left. rewrite H1, H2, H3, app_assoc. repeat split.
      * right. exists e. rewrite H1, H2, H3. repeat split.
Qed.

Lemma moves_done_attempted (cs : list oscall) :
  (forall src dst, ~ In (call_move src dst false) cs) ->
  moves_done cs = moves_attempted cs.
Proof.
  induction cs as [|[p|s d [|]] cs IH]; intros H; cbn.
  - reflexivity.
  - apply IH. intros src dst Hin. apply (H src dst). now right.
  - f_equal. apply IH. intros src dst Hin. apply (H src dst). now right.
  - exfalso. apply (H s d). now left.
Qed.

(** C8, amended. When [stop] arrives once exactly [k] of the [n] files have
    been processed ([k < n]) and the run returns, the run is what the
    uninterrupted loop does on the first [k] files, followed by the
    cancellation line, the final line and the completion signal: one move is
    attempted for each of the first [k] files and for no other ([k] files are
    moved when none of these moves fails), the file system is left as these
    [k] iterations leave it, and the count of processed files is [k]. *)
Theorem cancellation_after_k stop_arrives self w (k : nat) :
  let files := listing self w in
  let o := run stop_arrives self w in
  let o' := loop never (folder self) (determine_mode files)
              (Z.of_nat (List.length files)) (firstn k files) self w 0 in
  _is_running self = true ->
  (k < List.length files)%nat ->
  (forall i, (i < k)%nat -> stop_arrives i = false) ->
  stop_arrives k = true ->
  (forall e, how o <> Uncaught e) ->
  how o = Cancelled /\
  processed o = Z.of_nat k /\
  moves_attempted (calls o) = map (PyPath.join (folder self)) (firstn k files) /\
  List.length (moves_attempted (calls o)) = k /\
  ((forall src dst, ~ In (call_move src dst false) (calls o)) ->
     moves_done (calls o) = map (PyPath.join (folder self)) (firstn k files)) /\
  events o = log_update (mode_message (determine_mode files))
               :: events o'
               ++ [log_update "Операция отменена.";
                   log_update "Организация завершена."; finished_signal] /\
  completions (events o) = 1%nat /\
  calls o = calls o' /\ final o = final o'.
Proof.
  intros files o o' Hr Hk Hno Hyes Hret.
  assert (NE : listing self w <> []).
  { fold files. destruct files; [cbn in Hk; lia | discriminate]. }
  destruct (run_loop stop_arrives self w NE) as (He & Hc & Hf & Hp & Hh).
  fold files in He, Hc, Hf, Hp, Hh. fold o in He, Hc, Hf, Hp, Hh.
  assert (Hrest : skipn k files <> []).
  { intros E. apply (f_equal (@List.length _)) in E.
    rewrite length_skipn in E. cbn in E. lia. }
  assert (Hlen : List.length (firstn k files) = k).
  { rewrite length_firstn. lia. }
  pose proof (loop_cancel_at stop_arrives (folder self) (determine_mode files)
                (Z.of_nat (List.length files)) (skipn k files) Hrest
                (firstn k files) self w 0%Z (Z.le_refl 0) Hr) as L.
  rewrite Hlen, firstn_skipn in L. cbn [Z.to_nat Nat.add] in L.
  specialize (L ltac:(intros i Hi; apply Hno; lia) Hyes).
  fold o' in L. cbv zeta in L.
  destruct L as (Lc & Lf & Lp & Lh).
  destruct (loop_trace never (folder self) (determine_mode files)
              (Z.of_nat (List.length files)) (firstn k files) self w 0)
    as (n & Hn & Tp & _ & Tc & Tm & Tx & _).
  fold o' in Tp, Tc, Tm, Tx.
  destruct Lh as [(H1 & H2 & H3) | (e & H1 & H2 & H3)].
  - specialize (Tx H1). rewrite Hlen in Tx. subst n.
    rewrite <- Hlen in Tm at 1. rewrite firstn_all in Tm.
    assert (Ma : moves_attempted (calls o)
                 = map (PyPath.join (folder self)) (firstn k files)).
    { rewrite Hc, Lc. exact Tm. }
    assert (Ev : events o = log_update (mode_message (determine_mode files))
               :: events o'
               ++ [log_update "Операция отменена.";
                   log_update "Организация завершена."; finished_signal]).
    { rewrite He, H2, H3. cbn [epilogue]. rewrite <- app_assoc. reflexivity. }
    refine (conj _ (conj _ (conj _ (conj _ (conj _ (conj _ (conj _ (conj _ _)))))))).
    + rewrite Hh. exact H2.
    + rewrite Hp, Lp, Tp. lia.
    + exact Ma.
    + rewrite Ma, length_map. exact Hlen.
    + intros Hall. rewrite (moves_done_attempted _ Hall). exact Ma.
    + exact Ev.
    + rewrite Ev. cbn [completions]. rewrite completions_app, Tc. reflexivity.
    + rewrite Hc. exact Lc.
    + rewrite Hf. exact Lf.
  - exfalso. apply (Hret e). rewrite Hh. exact H2.
Qed.

(** Outside the three ways a run returns: [os.makedirs] is called outside
    the [try] of line 75, and when it raises on the first file the run stops
    on the exception, after the line that names the mode, without progress
    and without completion signal. *)
Lemma uncaught_makedirs_leaves_run stop_arrives self w f rest tdir e :
  listing self w = f :: rest ->
  stop_arrives 0%nat = false ->
  _is_running self = true ->
  target_dir w (folder self) (determine_mode (f :: rest)) f = Ok tdir ->
  path_exists w tdir = false ->
  makedirs w tdir = Raise e ->
  how (run stop_arrives self w) = Uncaught e /\
  events (run stop_arrives self w)
    = [log_update (mode_message (determine_mode (f :: rest)))] /\
  completions (events (run stop_arrives self w)) = 0%nat.
Proof.
  intros L Hs Hr T P M. unfold run. rewrite L.
  destruct (Z.eqb_spec (Z.of_nat (List.length (f :: rest))) 0) as [E|_];
    [cbn [List.length] in E; lia|].
  cbn [loop Z.to_nat]. rewrite Hs, Hr. cbn [negb].
  unfold process_file, ensure_dir. rewrite T, P, M. cbn. auto.
Qed.

End RelocatorFacts.

(** ** The claims on the sample folders *)

(** C1. A folder that holds the one file [README], whose name has no ['.']
    and so no extension, is put in Photo mode by line 53, although the
    comment of line 52 announces Photo mode for folders of photographs
    only. *)
Theorem extensionless_names_give_Photo :
  MemFS.m_listdir Sample.extensionless "d" = ["README"] /\
  lower_extension "README" = None /\
  determine_mode ["README"] = Photo /\
  events (run never Sample.self Sample.extensionless) =
    [ log_update "Сортируем фотографии по году.";
      log_update "Создана папка: d/Фотографии 2021";
      log_update "README → Фотографии 2021"; progress_update 100;
      log_update "Организация завершена."; finished_signal ].
Proof. vm_compute. repeat split. Qed.

(** C2 as stated fails: a folder that holds [REPORT.PDF] is in Default mode
    and the file goes to the folder [PDF], the extension as the name writes
    it, not to [pdf]. *)
Lemma default_destination_keeps_case :
  determine_mode (listing Sample.self Sample.uppercase) = Default /\
  spec_default_destination "REPORT.PDF" = "pdf" /\
  target_dir Sample.uppercase "d" Default "REPORT.PDF" = Ok "d/PDF" /\
  target_dir Sample.uppercase "d" Default "REPORT.PDF"
    <> Ok (PyPath.join "d" (spec_default_destination "REPORT.PDF")) /\
  calls (run never Sample.self Sample.uppercase)
    = [call_makedirs "d/PDF";
       call_move "d/REPORT.PDF" "d/PDF/REPORT.PDF" true].
Proof. vm_compute. repeat split. discriminate. Qed.

(** C3 as stated fails: of a capture date written with dashes the year is
    all that precedes the first [':'], not the prefix of four characters. *)
Lemma photo_year_beyond_four_chars :
  determine_mode (listing Sample.self Sample.dashed) = Photo /\
  capture_date Sample.dashed "d/a.jpg" = Some "2020-03-01 10:00:00" /\
  four_char_prefix "2020-03-01 10:00:00" = "2020" /\
  target_dir Sample.dashed "d" Photo "a.jpg"
    = Ok "d/Фотографии 2020-03-01 10" /\
  target_dir Sample.dashed "d" Photo "a.jpg"
    <> Ok (PyPath.join "d"
             ("Фотографии " ++ four_char_prefix "2020-03-01 10:00:00")).
Proof. vm_compute. repeat split. discriminate. Qed.

Lemma photo_destination_witness :
  (capture_date Sample.photos "d/a.jpg" = Some "2020:03:01 10:00:00" /\
   target_dir Sample.photos "d" Photo "a.jpg" = Ok "d/Фотографии 2020") /\
  (capture_date Sample.photos "d/b.jpg" = None /\
   getmtime Sample.photos "d/b.jpg" = Ok 1609459200%Z /\
   target_dir Sample.photos "d" Photo "b.jpg" = Ok "d/Фотографии 2021").
Proof.
  split.
  - split; [reflexivity|].
    exact (proj1 (proj1 (photo_destination Sample.photos "d" "a.jpg")
                    "2020:03:01 10:00:00" eq_refl)).
  - split; [reflexivity|]. split; [reflexivity|].
    exact (proj2 (photo_destination Sample.photos "d" "b.jpg")
             1609459200%Z eq_refl eq_refl).
Defined.

(** C5 as stated fails: a regular file that Pillow cannot read and whose
    modification time falls in the year 10000 makes line 32 raise. *)
Lemma get_image_year_raises_past_9999 :
  isfile Sample.far_future "d/broken.jpg" = true /\
  metadata_read_fails Sample.far_future "d/broken.jpg" /\
  getmtime Sample.far_future "d/broken.jpg" = Ok 253402300800%Z /\
  MemFS.utc_year 253402300800 = 10000%Z /\
  get_image_year Sample.far_future "d/broken.jpg"
    = Raise "year 10000 is out of range".
Proof.
  vm_compute. repeat split. left. eexists. reflexivity.
Qed.

Lemma get_image_year_witness :
  isfile Sample.broken "d/broken.jpg" = true /\
  metadata_read_fails Sample.broken "d/broken.jpg" /\
  getmtime Sample.broken "d/broken.jpg" = Ok 1609459200%Z /\
  strftime_Y 1609459200%Z = Ok "2021" /\
  get_image_year Sample.broken "d/broken.jpg" = Ok "2021".
Proof.
  assert (M : metadata_read_fails Sample.broken "d/broken.jpg").
  { left. exists "cannot identify image file". reflexivity. }
  assert (F : isfile Sample.broken "d/broken.jpg" = true) by reflexivity.
  split; [exact F|]. split; [exact M|]. split; [reflexivity|].
  split; [reflexivity|].
  destruct (get_image_year_raises_on_mtime_only Sample.broken "d/broken.jpg"
              F) as (t & Ht & Hm & _).
  rewrite (Hm M). injection Ht as <-. reflexivity.
Defined.

Lemma failed_move_witness :
  (move Sample.guarded_txt "d/a.txt" "d/txt/a.txt"
     = (Sample.guarded_txt, Some "[Errno 13] Permission denied") /\
   events (loop never "d" Default 3 ["a.txt"; "b.txt"; "c.txt"]
             Sample.self Sample.guarded 0)
   = ([log_update "Создана папка: d/txt"]
      ++ [log_update "Ошибка с a.txt: [Errno 13] Permission denied";
          progress_update (progress (0 + 1) 3)])
     ++ events (loop never "d" Default 3 ["b.txt"; "c.txt"]
                  Sample.self Sample.guarded_txt (0 + 1))) /\
  (how (run never Sample.self Sample.guarded) = Exhausted /\
   moves_attempted (calls (run never Sample.self Sample.guarded))
     = map (PyPath.join (folder Sample.self))
           (listing Sample.self Sample.guarded)).
Proof.
  split.
  - split; [reflexivity|].
    apply (proj1 (@failed_move_logged_run_continues MemFS.fs MemFS.memfs_os)
             never "d" Default 3%Z "a.txt" ["b.txt"; "c.txt"]
             Sample.self Sample.guarded 0%Z "d/txt" Sample.guarded_txt
             [log_update "Создана папка: d/txt"] [call_makedirs "d/txt"]
             Sample.guarded_txt "[Errno 13] Permission denied");
      reflexivity.
  - assert (X : how (run never Sample.self Sample.guarded) = Exhausted)
      by (vm_compute; reflexivity).
    split; [exact X|].
    exact (proj1 (proj2 (@failed_move_logged_run_continues MemFS.fs
                           MemFS.memfs_os)
                    never Sample.self Sample.guarded X)).
Defined.

Lemma completion_of_returning_runs_witness :
  (how (run (stop_after 1) Sample.self Sample.documents) = Cancelled /\
   completions (events (run (stop_after 1) Sample.self Sample.documents))
     = 1%nat /\
   List.last (events (run (stop_after 1) Sample.self Sample.documents))
             (log_update "") = finished_signal) /\
  (listing Sample.self Sample.organized = [] /\
   events (run never Sample.self Sample.organized)
     = [log_update "Нет файлов для организации."; finished_signal] /\
   how (run never Sample.self Sample.organized) = NoFiles).
Proof.
  split.
  - split; [vm_compute; reflexivity|].
    apply (proj1 (completion_of_returning_runs (stop_after 1) Sample.self
                    Sample.documents)).
    intros e. vm_compute. discriminate.
  - split; [reflexivity|].
    exact (proj2 (completion_of_returning_runs never Sample.self Sample.organized)
             eq_refl).
Defined.

(** C8 as stated fails: [stop] arrives after one of three files has been
    processed, and that file has not moved, its move having failed. *)
Lemma cancelled_after_failed_move :
  stop_after 1 0 = false /\ stop_after 1 1 = true /\
  how (run (stop_after 1) Sample.self Sample.guarded) = Cancelled /\
  processed (run (stop_after 1) Sample.self Sample.guarded) = 1%Z /\
  moves_attempted (calls (run (stop_after 1) Sample.self Sample.guarded))
    = ["d/a.txt"] /\
  moves_done (calls (run (stop_after 1) Sample.self Sample.guarded)) = [] /\
  List.length
    (moves_done (calls (run (stop_after 1) Sample.self Sample.guarded)))
    <> 1%nat.
Proof. vm_compute. repeat split. discriminate. Qed.

Lemma cancellation_witness :
  (1 < List.length (listing Sample.self Sample.documents))%nat /\
  stop_after 1 1 = true /\
  how (run (stop_after 1) Sample.self Sample.documents) = Cancelled /\
  processed (run (stop_after 1) Sample.self Sample.documents) = 1%Z /\
  moves_attempted (calls (run (stop_after 1) Sample.self Sample.documents))
    = map (PyPath.join "d") (firstn 1 (listing Sample.self Sample.documents)).
Proof.
  assert (H1 : (1 < List.length (listing Sample.self Sample.documents))%nat)
    by (vm_compute; lia).
  assert (H2 : forall i, (i < 1)%nat -> stop_after 1 i = false).
  { intros i Hi. destruct i; [reflexivity | lia]. }
  assert (H3 : forall e,
             how (run (stop_after 1) Sample.self Sample.documents)
             <> Uncaught e).
  { intros e. vm_compute. discriminate. }
  destruct (cancellation_after_k (stop_after 1) Sample.self Sample.documents
              1 eq_refl H1 H2 eq_refl H3) as (C1 & C2 & C3 & _).
  repeat split; assumption.
Defined.

Lemma organized_folder_witness :
  (forall name, In name (listdir Sample.organized (folder Sample.self)) ->
     isfile Sample.organized (PyPath.join (folder Sample.self) name) = false)
  /\
  run never Sample.self Sample.organized =
  {| events := [log_update "Нет файлов для организации."; finished_signal];
     calls := []; final := Sample.organized; processed := 0;
     how := NoFiles |}.
Proof.
  assert (H : forall name,
             In name (listdir Sample.organized (folder Sample.self)) ->
             isfile Sample.organized (PyPath.join (folder Sample.self) name)
             = false).
  { intros name Hn. vm_compute in Hn.
    destruct Hn as [<- | [<- | []]]; reflexivity. }
  split; [exact H|].
  exact (proj2 (organized_folder_only_notice never Sample.self
                  Sample.organized H)).
Defined.

(** C10. When the capture date is present, [get_image_year] returns what
    precedes the first [':'] of its value, whatever the value; and there is
    a file, its capture date written with dashes, for which this is not a
    year of four digits and yet is returned, without error and without the
    fallback to the modification time, and names the destination folder. *)
Theorem capture_year_unvalidated :
  (forall (world : Type) (os : OS world) (w : world) (filepath v : string),
     capture_date w filepath = Some v ->
     get_image_year w filepath = Ok (before_colon v)) /\
  (exists (w : MemFS.fs) (dir filename v : string) (t : Z) (y : string),
     capture_date w (PyPath.join dir filename) = Some v /\
     is_year4 (before_colon v) = false /\
     getmtime w (PyPath.join dir filename) = Ok t /\
     strftime_Y t = Ok y /\
     get_image_year w (PyPath.join dir filename) = Ok (before_colon v) /\
     before_colon v <> y /\
     target_dir w dir Photo filename
       = Ok (PyPath.join dir ("Фотографии " ++ before_colon v))).
Proof.
  split.
  - intros world os w filepath v H. rewrite get_image_year_spec, H.
    reflexivity.
  - exists Sample.dashed, "d", "a.jpg", "2020-03-01 10:00:00", 1609459200%Z,
      "2021".
    vm_compute. repeat split. discriminate.
Qed.

Lemma capture_year_witness :
  capture_date Sample.dashed "d/a.jpg" = Some "2020-03-01 10:00:00" /\
  get_image_year Sample.dashed "d/a.jpg" = Ok "2020-03-01 10".
Proof.
  split; [reflexivity|].
  exact (proj1 capture_year_unvalidated MemFS.fs MemFS.memfs_os
           Sample.dashed "d/a.jpg" "2020-03-01 10:00:00" eq_refl).
Defined.

(** * Further properties *)

(** ** More on names *)

Lemma lower_char_idempotent (a : ascii) :
  PyStr.lower_char (PyStr.lower_char a) = PyStr.lower_char a.
Proof.
  destruct a as [[] [] [] [] [] [] [] []]; reflexivity.
Qed.

Lemma lower_idempotent (s : string) :
  PyStr.lower (PyStr.lower s) = PyStr.lower s.
Proof.
  induction s as [|a rest IH]; cbn; [reflexivity|].
  now rewrite lower_char_idempotent, IH.
Qed.

Lemma lower_extension_lower (s : string) :
  lower_extension (PyStr.lower s) = lower_extension s.
Proof.
  rewrite <- !after_last_dot_lower. now rewrite lower_idempotent.
Qed.

Lemma determine_mode_cases (files : list string) :
  determine_mode files = Photo \/ determine_mode files = Default.
Proof.
  destruct (determine_mode files); auto.
Qed.

(** Two lists that determine the same condition of line 53 get the same
    mode. *)
Lemma determine_mode_ext (l1 l2 : list string) :
  (determine_mode l1 = Photo <-> determine_mode l2 = Photo) ->
  determine_mode l1 = determine_mode l2.
Proof.
  intros H. destruct (determine_mode l1), (determine_mode l2);
    try reflexivity.
  - symmetry. now apply H.
  - now apply H.
Qed.

(** X1. The mode depends on which names the folder holds, not on the order
    in which the file system lists them nor on repetitions. *)
Theorem determine_mode_same_names (l1 l2 : list string) :
  (forall f, In f l1 <-> In f l2) ->
  determine_mode l1 = determine_mode l2.
Proof.
  intros H. apply determine_mode_ext. rewrite !determine_mode_Photo.
  split; intros P f Hf; apply P; apply H; exact Hf.
Qed.

(** X2. One name with a ['.'] whose lower-cased extension is not a photo
    extension puts the whole folder in Default mode. *)
Theorem determine_mode_disqualified (files : list string) (f e : string) :
  In f files ->
  lower_extension f = Some e ->
  ~ In e PHOTO_EXTENSIONS ->
  determine_mode files = Default.
Proof.
  intros Hf He Hn.
  destruct (determine_mode_cases files) as [P|D]; [|exact D].
  rewrite determine_mode_Photo in P. specialize (P f Hf).
  rewrite He in P. contradiction.
Qed.

Lemma determine_mode_lower (files : list string) :
  determine_mode (map PyStr.lower files) = determine_mode files.
Proof.
  apply determine_mode_ext. rewrite !determine_mode_Photo. split.
  - intros P f Hf. rewrite <- lower_extension_lower. apply P.
    apply in_map. exact Hf.
  - intros P f Hf. apply in_map_iff in Hf as (g & <- & Hg).
    rewrite lower_extension_lower. apply P. exact Hg.
Qed.

(** X3. The mode does not depend on the letter case of the names. *)
Theorem determine_mode_ignores_case (l1 l2 : list string) :
  map PyStr.lower l1 = map PyStr.lower l2 ->
  determine_mode l1 = determine_mode l2.
Proof.
  intros H. rewrite <- (determine_mode_lower l1), <- (determine_mode_lower l2).
  now rewrite H.
Qed.

Lemma after_last_dot_decomposition (s e : string) :
  after_last_dot s = Some e ->
  exists stem, s = (stem ++ "." ++ e)%string /\ PyStr.contains "." e = false.
Proof.
  revert e. induction s as [|a rest IH]; intros e; cbn [after_last_dot];
    [discriminate|].
  destruct (after_last_dot rest) as [e'|] eqn:A.
  - intros [= <-]. destruct (IH e' eq_refl) as (stem & -> & Hc).
    exists (String a stem). split; [reflexivity | exact Hc].
  - destruct (Ascii.eqb_spec a "."); [|discriminate].
    intros [= <-]. subst a. exists "". split; [reflexivity|].
    rewrite contains_after_last_dot, A. reflexivity.
Qed.

(** X4. For a name with a ['.'], the extension of line 70 is the end of
    the name after a ['.'], and holds no ['.'] itself. *)
Theorem default_ext_decomposition (filename : string) :
  PyStr.contains "." filename = true ->
  exists stem,
    filename = (stem ++ "." ++ default_ext filename)%string /\
    PyStr.contains "." (default_ext filename) = false.
Proof.
  intros H. rewrite default_ext_spec.
  rewrite contains_after_last_dot in H.
  destruct (after_last_dot filename) as [e|] eqn:A; [|discriminate].
  apply after_last_dot_decomposition. exact A.
Qed.

Lemma ends_with_dot_after (s : string) :
  ends_with_dot s = true -> after_last_dot s = Some "".
Proof.
  induction s as [|a rest IH]; cbn [ends_with_dot after_last_dot];
    [discriminate|].
  destruct rest as [|b rest'].
  - intros H. cbn. now rewrite H.
  - intros H. now rewrite (IH H).
Qed.

Lemma append_empty (s : string) : (s ++ "")%string = s.
Proof.
  induction s as [|a rest IH]; cbn; [reflexivity | now rewrite IH].
Qed.

Lemma ends_with_slash_snoc (s : string) :
  PyPath.ends_with_slash (s ++ "/")%string = true.
Proof.
  induction s as [|a rest IH]; [reflexivity|].
  cbn [String.append PyPath.ends_with_slash].
  destruct (rest ++ "/")%string eqn:E; [|exact IH].
  destruct rest; discriminate.
Qed.

Lemma append_assoc (a b c : string) :
  ((a ++ b) ++ c = a ++ (b ++ c))%string.
Proof.
  induction a as [|x a IH]; cbn; [reflexivity | now rewrite IH].
Qed.

(** Joining the folder itself, written with a trailing separator, gives what
    joining the folder gives. *)
Lemma join_join_empty (dir name : string) :
  PyPath.join (PyPath.join dir "") name = PyPath.join dir name.
Proof.
  unfold PyPath.join at 2. cbn [PyPath.starts_with_slash].
  unfold PyPath.join.
  destruct (PyPath.starts_with_slash name); [reflexivity|].
  destruct (String.eqb_spec dir "") as [->|NE]; [reflexivity|].
  cbn [orb]. destruct (PyPath.ends_with_slash dir) eqn:E.
  - rewrite append_empty, E.
    destruct (String.eqb_spec dir ""); reflexivity.
  - change (dir ++ "/" ++ "")%string with (dir ++ "/")%string.
    rewrite ends_with_slash_snoc, orb_true_r.
    now rewrite append_assoc.
Qed.

Lemma split_no_sep (sep : ascii) (s : string) :
  PyStr.contains sep s = false -> PyStr.split sep s = [s].
Proof.
  induction s as [|a rest IH]; cbn [PyStr.contains PyStr.split];
    [reflexivity|].
  destruct (Ascii.eqb a sep); [discriminate|].
  intros H. now rewrite (IH H).
Qed.

(** [(a + sep + b).split(sep) == a.split(sep) + b.split(sep)]. *)
Lemma split_app (sep : ascii) (a b : string) :
  PyStr.split sep (a ++ String sep b)%string
  = PyStr.split sep a ++ PyStr.split sep b.
Proof.
  induction a as [|x a IH]; cbn [String.append PyStr.split].
  - now rewrite Ascii.eqb_refl.
  - destruct (Ascii.eqb x sep); [now rewrite IH|].
    rewrite IH. destruct (PyStr.split sep a) as [|w ws] eqn:E.
    + now apply split_not_nil in E.
    + reflexivity.
Qed.

Lemma item_last_app (l1 l2 : list string) :
  l2 <> [] -> PyStr.item_last (l1 ++ l2) = PyStr.item_last l2.
Proof.
  intros NE. unfold PyStr.item_last.
  induction l1 as [|x l1 IH]; [reflexivity|].
  cbn [app]. destruct (l1 ++ l2) eqn:E.
  - apply app_eq_nil in E as [_ E]. contradiction.
  - rewrite <- IH. reflexivity.
Qed.

Lemma basename_after_slash (a name : string) :
  PyStr.contains "/" name = false ->
  PyPath.basename (a ++ String "/" name)%string = name.
Proof.
  intros H. unfold PyPath.basename.
  rewrite split_app, item_last_app by apply split_not_nil.
  now rewrite (split_no_sep _ _ H).
Qed.

Lemma ends_with_slash_decomposition (s : string) :
  PyPath.ends_with_slash s = true -> exists a, s = (a ++ "/")%string.
Proof.
  induction s as [|x rest IH]; cbn [PyPath.ends_with_slash]; [discriminate|].
  destruct rest as [|y rest'].
  - intros H. apply Ascii.eqb_eq in H. subst x. now exists "".
  - intros H. destruct (IH H) as (a & E). exists (String x a).
    cbn. now rewrite <- E.
Qed.

(** [os.path.basename(os.path.join(dir, name)) == name] for a name without
    separator. *)
Lemma basename_join (dir name : string) :
  PyStr.contains "/" name = false ->
  PyPath.basename (PyPath.join dir name) = name.
Proof.
  intros H. unfold PyPath.join.
  assert (S : PyPath.starts_with_slash name = false).
  { destruct name as [|x n]; [reflexivity|]. cbn in *.
    destruct (Ascii.eqb x "/"); [discriminate | reflexivity]. }
  rewrite S.
  destruct (String.eqb_spec dir "") as [->|NE].
  - cbn. unfold PyPath.basename. now rewrite (split_no_sep _ _ H).
  - cbn [orb]. destruct (PyPath.ends_with_slash dir) eqn:E.
    + destruct (ends_with_slash_decomposition dir E) as (a & ->).
      rewrite append_assoc. apply basename_after_slash, H.
    + apply basename_after_slash, H.
Qed.

Lemma contains_append (c : ascii) (a b : string) :
  PyStr.contains c (a ++ b)%string
  = orb (PyStr.contains c a) (PyStr.contains c b).
Proof.
  induction a as [|x a IH]; cbn; [reflexivity|].
  destruct (Ascii.eqb x c); [reflexivity | exact IH].
Qed.

Lemma default_ext_no_slash (filename : string) :
  PyStr.contains "/" filename = false ->
  PyStr.contains "/" (default_ext filename) = false.
Proof.
  intros H. rewrite default_ext_spec.
  destruct (after_last_dot filename) as [e|] eqn:A; [|reflexivity].
  destruct (after_last_dot_decomposition _ _ A) as (stem & E & _).
  rewrite E, !contains_append in H.
  apply orb_false_iff in H as [_ H]. apply orb_false_iff in H as [_ H].
  exact H.
Qed.

Lemma is_DateTimeOriginal_tag (tag : Z) :
  is_DateTimeOriginal tag = true <-> tag = 36867%Z.
Proof.
  unfold is_DateTimeOriginal, TAGS_get, TAGS. cbn [find fst snd].
  repeat match goal with
         | |- context [Z.eqb ?k tag] => destruct (Z.eqb_spec k tag)
         end; subst; cbn; split; intros H; try discriminate; try reflexivity;
    try lia.
Qed.

Lemma before_colon_prefix (v : string) :
  exists rest,
    v = (before_colon v ++ rest)%string /\
    PyStr.contains ":" (before_colon v) = false /\
    (rest = "" \/ exists r, rest = String ":" r).
Proof.
  induction v as [|a v IH]; cbn [before_colon].
  - exists "". repeat split. now left.
  - destruct (Ascii.eqb_spec a ":") as [->|NE].
    + exists (String ":" v). repeat split. right. now exists v.
    + destruct IH as (rest & E & C & R). exists rest. cbn.
      rewrite <- E. repeat split; [|exact R].
      apply Ascii.eqb_neq in NE. now rewrite NE.
Qed.

Section MoreRelocatorFacts.

Context {world : Type} {os : OS world}.

(** X5. In Default mode a name that ends with ['.'] has the empty
    extension: its destination folder is the organized folder itself, and the
    path it is moved to is its own path. *)
Theorem trailing_dot_moves_onto_itself (w : world) (dir filename : string) :
  ends_with_dot filename = true ->
  target_dir w dir Default filename = Ok (PyPath.join dir "") /\
  PyPath.join (PyPath.join dir "") filename = PyPath.join dir filename.
Proof.
  intros H. split; [|apply join_join_empty].
  unfold target_dir. rewrite default_ext_spec, (ends_with_dot_after _ H).
  reflexivity.
Qed.

(** X6. In Default mode the line logged for a successful move reads
    [name → extension]: the base name of the destination folder is the
    extension, or the label of the names without ['.']. *)
Theorem default_log_names_extension (w : world) (dir filename tdir : string) :
  PyStr.contains "/" filename = false ->
  target_dir w dir Default filename = Ok tdir ->
  move_log filename tdir None
  = log_update (filename ++ " → " ++ default_ext filename).
Proof.
  intros H T. unfold target_dir in T. injection T as <-.
  unfold move_log. now rewrite basename_join by now apply default_ext_no_slash.
Qed.

(** X7. Only the tag DateTimeOriginal (36867) is looked at: for an image
    whose table holds no item with this tag, whatever else it holds,
    [get_image_year] returns the year of the modification time (it is
    [strftime_Y] of that time, result or exception). *)
Theorem only_DateTimeOriginal_counts (w : world) (filepath : string)
    (items : exif_dict) (t : Z) :
  getexif w filepath = Ok (Some items) ->
  (forall kv, In kv items -> fst kv <> 36867%Z) ->
  getmtime w filepath = Ok t ->
  get_image_year w filepath = strftime_Y t.
Proof.
  intros G H M. rewrite get_image_year_spec. unfold capture_date. rewrite G.
  destruct (find _ items) as [[tag value]|] eqn:F.
  - apply find_some in F as [Hin Ht]. cbn in Ht.
    apply is_DateTimeOriginal_tag in Ht. now apply H in Hin.
  - rewrite M. reflexivity.
Qed.

(** X8. The year taken from the metadata is the start of the capture date,
    holds no [':'], and is followed in the value by nothing or by a
    [':']. *)
Theorem metadata_year_is_colon_free_prefix (w : world) (filepath v : string) :
  capture_date w filepath = Some v ->
  exists year rest,
    get_image_year w filepath = Ok year /\
    v = (year ++ rest)%string /\
    PyStr.contains ":" year = false /\
    (rest = "" \/ exists r, rest = String ":" r).
Proof.
  intros C. rewrite get_image_year_spec, C.
  destruct (before_colon_prefix v) as (rest & E & N & R).
  exists (before_colon v), rest. auto.
Qed.

End MoreRelocatorFacts.

Section RunFacts.

Context {world : Type} {os : OS world}.

Lemma loop_not_cancelled stop_arrives dir mode total files :
  (forall i, stop_arrives i = false) ->
  forall self w done,
    _is_running self = true ->
    how (loop stop_arrives dir mode total files self w done) <> Cancelled.
Proof.
  intros Hno. induction files as [|f rest IH]; intros self w done Hr;
    cbn [loop]; [discriminate|].
  rewrite Hno, Hr. cbn [negb].
  destruct (process_file dir mode total w done f) as [[[ev cs] w'] [d|e]];
    cbn [how]; [apply IH, Hr | discriminate].
Qed.

(** X9. A run whose worker has its flag set and during which no call of
    [stop] arrives is never cancelled. *)
Theorem never_cancelled_without_stop stop_arrives self w :
  _is_running self = true ->
  (forall i, stop_arrives i = false) ->
  how (run stop_arrives self w) <> Cancelled.
Proof.
  intros Hr Hno.
  destruct (listing self w) as [|f l] eqn:L.
  - rewrite (run_empty _ _ _ L). discriminate.
  - assert (NE : listing self w <> []) by (rewrite L; discriminate).
    destruct (run_loop stop_arrives self w NE) as (_ & _ & _ & _ & ->).
    apply loop_not_cancelled; assumption.
Qed.

(** X10. A worker stopped before it runs, on a folder with files, names the
    mode, logs the cancellation and the end, signals completion, and calls
    nothing that changes the file system. *)
Theorem stopped_worker_moves_nothing stop_arrives self w :
  listing self w <> [] ->
  run stop_arrives (stop self) w =
  {| events := [ log_update (mode_message (determine_mode (listing self w)));
                 log_update "Операция отменена.";
                 log_update "Организация завершена."; finished_signal ];
     calls := []; final := w; processed := 0; how := Cancelled |}.
Proof.
  intros NE. unfold run.
  change (listing (stop self) w) with (listing self w).
  destruct (listing self w) as [|f l]; [contradiction|].
  destruct (Z.eqb_spec (Z.of_nat (List.length (f :: l))) 0) as [E|_];
    [cbn [List.length] in E; lia|].
  cbn [loop]. destruct (stop_arrives (Z.to_nat 0)); reflexivity.
Qed.

(** X11. In every run, however it ends, the moves attempted are those of
    the first [processed] files of the listing, one each and in listing
    order, and one progress signal is emitted per processed file. *)
Theorem moves_follow_listing stop_arrives self w :
  let o := run stop_arrives self w in
  (0 <= processed o <= Z.of_nat (List.length (listing self w)))%Z /\
  moves_attempted (calls o)
    = map (PyPath.join (folder self))
          (firstn (Z.to_nat (processed o)) (listing self w)) /\
  List.length (progress_values (events o)) = Z.to_nat (processed o).
Proof.
  intros o. subst o.
  destruct (listing self w) as [|f l] eqn:L.
  - rewrite (run_empty _ _ _ L). cbn. repeat split; lia.
  - assert (NE : listing self w <> []) by (rewrite L; discriminate).
    destruct (run_loop stop_arrives self w NE) as (He & Hc & _ & Hp & _).
    rewrite L in He, Hc, Hp.
    destruct (loop_trace stop_arrives (folder self)
                (determine_mode (f :: l)) (Z.of_nat (List.length (f :: l)))
                (f :: l) self w 0)
      as (n & Hn & Hpr & Hv & _ & Hm & _ & _).
    rewrite Hp, Hc, He, Hpr, Hm. cbn [Z.add]. rewrite Nat2Z.id.
    repeat split; try lia.
    cbn [progress_values]. rewrite progress_values_app, Hv.
    match goal with |- context [epilogue ?x] => destruct x end;
      cbn [epilogue progress_values]; rewrite app_nil_r, length_map,
      length_seq; reflexivity.
Qed.

Lemma iterations_app dir (a b : list oscall) :
  iterations dir a -> iterations dir b -> iterations dir (a ++ b).
Proof.
  induction 1; intros Hb; cbn [app]; [exact Hb | |]; constructor; auto.
Qed.

Lemma process_file_calls dir mode total w done filename :
  match process_file dir mode total w done filename with
  | (_, cs, _, Ok _) => iterations dir cs
  | (_, cs, _, Raise _) => cs = [] \/ exists tdir, cs = [call_makedirs tdir]
  end.
Proof.
  unfold process_file.
  destruct (target_dir w dir mode filename) as [tdir|e]; [|now left].
  unfold ensure_dir. destruct (path_exists w tdir).
  - destruct (move w _ _) as [w2 failure]. cbn. repeat constructor.
  - destruct (makedirs w tdir) as [w1|e]; cbn.
    + destruct (move w1 _ _) as [w2 failure]. cbn. repeat constructor.
    + right. now exists tdir.
Qed.

Lemma loop_iterations stop_arrives dir mode total files :
  forall self w done,
    let o := loop stop_arrives dir mode total files self w done in
    (forall e, how o <> Uncaught e) -> iterations dir (calls o).
Proof.
  induction files as [|f rest IH]; intros self w done; cbn [loop].
  - intros _. constructor.
  - destruct (negb (_is_running _)); [intros _; constructor|].
    pose proof (process_file_calls dir mode total w done f) as P.
    destruct (process_file dir mode total w done f) as [[[ev cs] w'] [d|e]];
      cbn [how calls].
    + intros H. apply iterations_app; [exact P | apply IH, H].
    + intros H. exfalso. now apply (H e).
Qed.

(** X12. In a run that returns, every folder created is created just
    before the move of a file into it: the calls are moves of listed files,
    each preceded or not by the creation of its own destination folder. *)
Theorem folder_created_then_filled stop_arrives self w :
  (forall e, how (run stop_arrives self w) <> Uncaught e) ->
  iterations (folder self) (calls (run stop_arrives self w)).
Proof.
  intros H. destruct (listing self w) as [|f l] eqn:L.
  - rewrite (run_empty _ _ _ L). constructor.
  - assert (NE : listing self w <> []) by (rewrite L; discriminate).
    destruct (run_loop stop_arrives self w NE) as (_ & Hc & _ & _ & Hh).
    rewrite Hc. apply loop_iterations. now rewrite <- Hh.
Qed.

Lemma loop_default_abort stop_arrives dir total files :
  forall self w done e,
    let o := loop stop_arrives dir Default total files self w done in
    how o = Uncaught e ->
    exists cs tdir, calls o = cs ++ [call_makedirs tdir].
Proof.
  induction files as [|f rest IH]; intros self w done e; cbn [loop].
  - discriminate.
  - destruct (negb (_is_running _)); [discriminate|].
    unfold process_file. cbn [target_dir].
    destruct (ensure_dir w _) as [[[w1 ev1] c1]|e'] eqn:E.
    + destruct (move w1 _ _) as [w2 failure]. cbn [how calls].
      intros H. destruct (IH _ _ _ _ H) as (cs & tdir & ->).
      eexists _, tdir. rewrite !app_assoc. reflexivity.
    + cbn. intros _. exists [], (PyPath.join dir (default_ext f)).
      reflexivity.
Qed.

(** X13. In Default mode the only exception that leaves the run is one of
    [os.makedirs]: the last call of such a run is the creation of a
    folder. *)
Theorem default_mode_aborts_on_makedirs_only stop_arrives self w e :
  determine_mode (listing self w) = Default ->
  how (run stop_arrives self w) = Uncaught e ->
  exists cs tdir,
    calls (run stop_arrives self w) = cs ++ [call_makedirs tdir].
Proof.
  intros D H. destruct (listing self w) as [|f l] eqn:L.
  - rewrite (run_empty _ _ _ L) in H. discriminate.
  - assert (NE : listing self w <> []) by (rewrite L; discriminate).
    destruct (run_loop stop_arrives self w NE) as (_ & Hc & _ & _ & Hh).
    rewrite L in Hc, Hh. rewrite D in Hc, Hh. rewrite Hc.
    rewrite Hh in H. eapply loop_default_abort. exact H.
Qed.

End RunFacts.

Section RoundingError.

Import Float64.
Local Open Scope Q_scope.

Lemma rne_error (y : Q) :
  inject_Z (rne y) - (1 # 2) <= y /\ y <= inject_Z (rne y) + (1 # 2).
Proof.
  pose proof (floor_bounds y) as [F1 F2].
  destruct (rne_floor_cases y) as [[H ->]|[[H ->]|[H ->]]].
  - lra.
  - rewrite inject_Z_plus. change (inject_Z 1) with 1. lra.
  - destruct (Z.even (Qfloor y)).
    + lra.
    + rewrite inject_Z_plus. change (inject_Z 1) with 1. lra.
Qed.

(** The rounding moves a number by half a unit in the last place at most. *)
Lemma RN_error (x : Q) :
  0 < x ->
  x - 2 ^ cexp x * (1 # 2) <= RN x /\ RN x <= x + 2 ^ cexp x * (1 # 2).
Proof.
  intros Hx. rewrite (RN_pos_eq x Hx).
  set (c := cexp x). pose proof (pow2_pos c) as Pc.
  destruct (rne_error (x / 2 ^ c)) as [E1 E2].
  assert (Hy : x == (x / 2 ^ c) * 2 ^ c) by (field; lra).
  set (y := x / 2 ^ c) in *. set (r := inject_Z (rne y)) in *.
  set (P := 2 ^ c) in *. split; nra.
Qed.

Lemma cexp_normal (x : Q) :
  2 ^ (-1022) <= x -> cexp x = (mag x - 53)%Z.
Proof.
  intros H. assert (Hx : 0 < x).
  { pose proof (pow2_pos (-1022)). lra. }
  destruct (mag_spec x Hx) as [_ M].
  assert (L : 2 ^ (-1022) < 2 ^ mag x) by lra.
  apply Qpower_lt_compat_l_inv in L; [|reflexivity].
  unfold cexp, prec, emin. lia.
Qed.

(** In the normal range the rounding has relative error [2^-53] at most. *)
Lemma RN_relative_error (x : Q) :
  2 ^ (-1022) <= x ->
  x - x * (1 # 9007199254740992) <= RN x /\
  RN x <= x + x * (1 # 9007199254740992).
Proof.
  intros H. assert (Hx : 0 < x).
  { pose proof (pow2_pos (-1022)). lra. }
  destruct (RN_error x Hx) as [E1 E2].
  rewrite (cexp_normal x H) in E1, E2.
  destruct (mag_spec x Hx) as [M _].
  assert (P : 2 ^ (mag x - 53) == 2 ^ (mag x - 1) * (1 # 4503599627370496)).
  { replace (mag x - 53)%Z with ((mag x - 1) + (-52))%Z by lia.
    rewrite pow2_add. reflexivity. }
  rewrite P in E1, E2. set (m := 2 ^ (mag x - 1)) in *. split; lra.
Qed.

(** The float handed to [int] lies within [2^-45] of the exact
    percentage. *)
Lemma scaled_near_exact (p t : Z) :
  (1 <= p <= t)%Z -> (t < 2 ^ 45)%Z ->
  100 * (inject_Z p / inject_Z t) - (1 # 35184372088832) < scaled p t /\
  scaled p t < 100 * (inject_Z p / inject_Z t) + (1 # 35184372088832).
Proof.
  intros [Hp Hpt] Ht.
  assert (HT : 0 < inject_Z t).
  { change 0 with (inject_Z 0). rewrite <- Zlt_Qlt. lia. }
  assert (HP : 1 <= inject_Z p).
  { change 1 with (inject_Z 1). rewrite <- Zle_Qle. lia. }
  assert (HPT : inject_Z p <= inject_Z t) by (rewrite <- Zle_Qle; lia).
  assert (HTB : inject_Z t < inject_Z (2 ^ 45)) by (rewrite <- Zlt_Qlt; lia).
  change (inject_Z (2 ^ 45)) with (35184372088832 # 1) in HTB.
  set (x := inject_Z p / inject_Z t).
  assert (Hx : x * inject_Z t == inject_Z p) by (unfold x; field; lra).
  assert (X1 : x <= 1).
  { unfold x. apply Qle_shift_div_r; lra. }
  assert (X0 : (1 # 35184372088832) <= x).
  { unfold x. apply Qle_shift_div_l; [exact HT | lra]. }
  assert (N1 : 2 ^ (-1022) <= x).
  { apply Qle_trans with (2 ^ (-45)); [apply pow2_le; lia|].
    change (2 ^ (-45)) with (1 # 35184372088832). exact X0. }
  destruct (RN_relative_error x N1) as [Q1 Q2].
  unfold scaled, mul, true_div. fold x. set (q := RN x) in *.
  assert (N2 : 2 ^ (-1022) <= q * of_int 100).
  { rewrite of_int_100.
    apply Qle_trans with (2 ^ (-45)); [apply pow2_le; lia|].
    change (2 ^ (-45)) with (1 # 35184372088832). lra. }
  destruct (RN_relative_error _ N2) as [V1 V2].
  pose proof of_int_100 as C.
  set (y := q * of_int 100) in *. set (v := RN y) in *.
  assert (Y : y == 100 * q) by (unfold y; rewrite C; ring).
  split; lra.
Qed.

Lemma progress_near_exact (p t : Z) :
  (1 <= p <= t)%Z -> (t < 2 ^ 45)%Z ->
  (exact_percentage p t - 1 <= progress p t <= exact_percentage p t)%Z.
Proof.
  intros Hpt Ht.
  destruct (scaled_near_exact p t Hpt Ht) as [L U].
  destruct (scaled_le p p t ltac:(lia) ltac:(lia)) as [S0 _].
  unfold progress. rewrite to_int_nonneg by exact S0.
  set (v := scaled p t) in *.
  assert (HT : 0 < inject_Z t).
  { change 0 with (inject_Z 0). rewrite <- Zlt_Qlt. lia. }
  assert (HTB : inject_Z t < 35184372088832 # 1).
  { change (35184372088832 # 1) with (inject_Z (2 ^ 45)).
    rewrite <- Zlt_Qlt. lia. }
  set (x := inject_Z p / inject_Z t) in *.
  assert (Hx : x * inject_Z t == inject_Z p) by (unfold x; field; lra).
  unfold exact_percentage. set (k := (p * 100 / t)%Z).
  assert (K1 : (k * t <= p * 100)%Z).
  { unfold k. pose proof (Z.mul_div_le (p * 100) t ltac:(lia)). lia. }
  assert (K2 : (p * 100 + 1 <= (k + 1) * t)%Z).
  { unfold k. pose proof (Z.mul_succ_div_gt (p * 100) t ltac:(lia)). lia. }
  rewrite Zle_Qle in K1, K2.
  rewrite inject_Z_plus, !inject_Z_mult, inject_Z_plus in K2.
  rewrite !inject_Z_mult in K1.
  change (inject_Z 100) with 100 in *. change (inject_Z 1) with 1 in *.
  set (K := inject_Z k) in *. set (T := inject_Z t) in *.
  set (P := inject_Z p) in *.
  split.
  - assert (B : inject_Z (k - 1) <= v).
    { unfold Z.sub. rewrite inject_Z_plus, inject_Z_opp. fold K.
      change (inject_Z 1) with 1.
      assert (KE : K <= 100 * x).
      { apply Qnot_lt_le. intros C. nra. }
      lra. }
    apply Qfloor_resp_le in B. now rewrite Qfloor_Z in B.
  - assert (B : v < inject_Z (k + 1)).
    { rewrite inject_Z_plus. fold K. change (inject_Z 1) with 1.
      apply Qnot_le_lt. intros C. nra. }
    pose proof (Qfloor_le v) as F.
    assert (G : inject_Z (Qfloor v) < inject_Z (k + 1)) by lra.
    rewrite <- Zlt_Qlt in G. lia.
Qed.

(** X14. For up to [2^45] files the percentage shown is the exact
    percentage [processed * 100 // total] or one less. *)
Theorem progress_within_one_of_exact (p t : Z) :
  (1 <= p <= t)%Z -> (t < 2 ^ 45)%Z ->
  (exact_percentage p t - 1 <= progress p t <= exact_percentage p t)%Z.
Proof. exact (progress_near_exact p t). Qed.

(** X15. For up to [2^45] files the percentage is below 100 as long as a
    file remains to be processed. *)
Theorem progress_full_only_at_end (p t : Z) :
  (1 <= p < t)%Z -> (t < 2 ^ 45)%Z -> (progress p t <= 99)%Z.
Proof.
  intros Hpt Ht.
  destruct (scaled_near_exact p t ltac:(lia) Ht) as [L U].
  destruct (scaled_le p p t ltac:(lia) ltac:(lia)) as [S0 _].
  unfold progress. rewrite to_int_nonneg by exact S0.
  set (v := scaled p t) in *.
  assert (HT : 0 < inject_Z t).
  { change 0 with (inject_Z 0). rewrite <- Zlt_Qlt. lia. }
  assert (HTB : inject_Z t < 35184372088832 # 1).
  { change (35184372088832 # 1) with (inject_Z (2 ^ 45)).
    rewrite <- Zlt_Qlt. lia. }
  assert (HP : inject_Z p + 1 <= inject_Z t).
  { change 1 with (inject_Z 1). rewrite <- inject_Z_plus, <- Zle_Qle. lia. }
  set (x := inject_Z p / inject_Z t) in *.
  assert (Hx : x * inject_Z t == inject_Z p) by (unfold x; field; lra).
  set (T := inject_Z t) in *. set (P := inject_Z p) in *.
  assert (B : v < inject_Z 100).
  { change (inject_Z 100) with 100. apply Qnot_le_lt. intros C. nra. }
  pose proof (Qfloor_le v) as F.
  assert (G : inject_Z (Qfloor v) < inject_Z 100) by lra.
  rewrite <- Zlt_Qlt in G. lia.
Qed.

End RoundingError.

Lemma log_texts_app (a b : list event) :
  log_texts (a ++ b) = log_texts a ++ log_texts b.
Proof.
  induction a as [|[t|v|] a IH]; cbn; rewrite ?IH; reflexivity.
Qed.

Lemma last_cons_default {A : Type} (a : A) (l : list A) (d : A) :
  List.last (a :: l) d = List.last l a.
Proof.
  revert a d. induction l as [|b l IH]; intros a d; [reflexivity|].
  change (List.last (a :: b :: l) d) with (List.last (b :: l) d).
  rewrite !IH. reflexivity.
Qed.

(** The slots on signals other than the completion: the log grows by the
    texts, the bar takes the last value, the rest stays. *)
Lemma deliver_before_completion (evs : list event) :
  completions evs = 0%nat ->
  Forall (fun v => 0 <= v <= 100)%Z (progress_values evs) ->
  forall self,
    fold_left App.deliver evs self =
    {| App.folder_line := App.folder_line self;
       App.organize_btn := App.organize_btn self;
       App.progress := List.last (progress_values evs) (App.progress self);
       App.log_area := App.log_area self ++ log_texts evs;
       App.worker := App.worker self |}.
Proof.
  induction evs as [|[text|value|] evs IH]; intros C F self;
    cbn [fold_left App.deliver].
  - cbn. rewrite app_nil_r. now destruct self.
  - rewrite IH by assumption. cbn. now rewrite <- app_assoc.
  - cbn [progress_values] in F. apply Forall_cons_iff in F as [B F].
    rewrite IH by assumption. unfold App.setValue.
    assert (E : (0 <=? value)%Z && (value <=? 100)%Z = true).
    { apply andb_true_iff. split; apply Z.leb_le; lia. }
    rewrite E. cbn [App.folder_line App.organize_btn App.progress
                    App.log_area App.worker progress_values log_texts].
    now rewrite last_cons_default.
  - discriminate.
Qed.

Section SessionFacts.

Context {world : Type} {os : OS world}.

(** X16. A press on the button with no folder chosen, or with a text that
    is not a directory, logs the refusal and nothing else: no worker, the
    button, the bar and the file system as they were. *)
Theorem invalid_folder_starts_nothing (isdir : world -> string -> bool)
    (self : App.Window) (w : world) :
  App.folder_line self = "" \/ isdir w (App.folder_line self) = false ->
  organize_session isdir self w = (App.log self "Неверная папка.", w).
Proof.
  intros H. unfold organize_session, App.start_organization.
  assert (E : (App.folder_line self =? "")
              || negb (isdir w (App.folder_line self)) = true).
  { destruct H as [-> | ->]; [reflexivity | apply orb_true_r]. }
  now rewrite E.
Qed.

Lemma run_events_shape stop_arrives (self : Worker) (w : world) :
  (forall e, how (run stop_arrives self w) <> Uncaught e) ->
  exists pre,
    events (run stop_arrives self w) = pre ++ [finished_signal] /\
    completions pre = 0%nat /\
    Forall (fun v => 0 <= v <= 100)%Z (progress_values pre) /\
    progress_values pre = progress_values (events (run stop_arrives self w)) /\
    log_texts pre = log_texts (events (run stop_arrives self w)).
Proof.
  intros H.
  destruct (run_progress_values stop_arrives self w)
    as (n & Hn & _ & Hv & _).
  assert (B : Forall (fun v => 0 <= v <= 100)%Z
                (progress_values (events (run stop_arrives self w)))).
  { rewrite Hv. apply percentages_bounded. lia. }
  clear Hv Hn n.
  destruct (listing self w) as [|f l] eqn:L.
  - rewrite (run_empty _ _ _ L) in *.
    exists [log_update "Нет файлов для организации."]. cbn. auto.
  - assert (NE : listing self w <> []) by (rewrite L; discriminate).
    destruct (run_loop stop_arrives self w NE) as (He & _ & _ & _ & Hh).
    rewrite L in He, Hh.
    destruct (loop_trace stop_arrives (folder self)
                (determine_mode (f :: l)) (Z.of_nat (List.length (f :: l)))
                (f :: l) self w 0)
      as (n & _ & _ & _ & Hc & _ & _ & _).
    rewrite He in *. rewrite <- Hh in *.
    destruct (how (run stop_arrives self w)) as [| | |e] eqn:X;
      try (exfalso; apply (H e); reflexivity);
      cbn [epilogue] in *;
      match goal with |- context [?a :: ?b ++ [?c; finished_signal]] =>
        exists (a :: b ++ [c]) end;
      (split; [cbn [app]; rewrite <- app_assoc; reflexivity|]);
      cbn [completions progress_values log_texts] in *;
      rewrite ?completions_app, ?progress_values_app, ?log_texts_app in *;
      cbn [completions progress_values log_texts] in *;
      rewrite ?app_nil_r in *; rewrite ?Hc; auto.
Qed.

(** X17. A press on the button with a valid folder, followed by the
    delivery of the signals of a run that returns, leaves the button enabled
    again, the log extended by the start line, the lines of the run and the
    final line, the bar on the last percentage (100 when the loop reached its
    end), and the file system as the run leaves it. *)
Theorem session_of_a_returning_run (isdir : world -> string -> bool)
    (self : App.Window) (w : world) :
  let dir := App.folder_line self in
  let o := run never (Worker_init dir) w in
  dir <> "" ->
  isdir w dir = true ->
  (forall e, how o <> Uncaught e) ->
  organize_session isdir self w =
  ({| App.folder_line := dir;
      App.organize_btn := true;
      App.progress := List.last (progress_values (events o)) 0%Z;
      App.log_area := App.log_area self ++ ["Начинаем организацию..."]
                      ++ log_texts (events o) ++ ["Готово!"];
      App.worker := Some (Worker_init dir) |}, final o) /\
  (how o = Exhausted ->
     App.progress (fst (organize_session isdir self w)) = 100%Z).
Proof.
  intros dir o Hd Hv Hret.
  assert (S : organize_session isdir self w =
  ({| App.folder_line := dir;
      App.organize_btn := true;
      App.progress := List.last (progress_values (events o)) 0%Z;
      App.log_area := App.log_area self ++ ["Начинаем организацию..."]
                      ++ log_texts (events o) ++ ["Готово!"];
      App.worker := Some (Worker_init dir) |}, final o)).
  { unfold organize_session, App.start_organization. fold dir.
    rewrite Hv. apply String.eqb_neq in Hd. rewrite Hd. cbn [orb negb].
    fold o. destruct (run_events_shape never (Worker_init dir) w Hret)
      as (pre & E & C & B & P & T).
    fold o in E, P, T.
    assert (F : forall s, fold_left App.deliver (events o) s
                          = App.finish (fold_left App.deliver pre s)).
    { intros s. rewrite E, fold_left_app. reflexivity. }
    rewrite F, (deliver_before_completion pre C B), P, T.
    unfold App.finish, App.log, App.setEnabled, App.setValue. cbn.
    rewrite <- !app_assoc. reflexivity. }
  split; [exact S|].
  intros X. rewrite S. cbn [fst App.progress].
  destruct (run_progress_values never (Worker_init dir) w)
    as (n & Hn & _ & Hpv & Hx).
  fold o in Hpv, Hx. destruct (Hx X) as [En NE]. rewrite Hpv.
  assert (Hpos : (0 < n)%nat).
  { rewrite En. destruct (listing (Worker_init dir) w);
      [contradiction | cbn; lia]. }
  rewrite percentages_last by exact Hpos. rewrite En.
  apply progress_full. lia.
Qed.

End SessionFacts.

(** ** The further properties on the sample folders *)

Lemma determine_mode_same_names_witness :
  (forall f, In f ["a.jpg"; "b.png"] <-> In f ["b.png"; "a.jpg"; "a.jpg"]) /\
  determine_mode ["a.jpg"; "b.png"]
    = determine_mode ["b.png"; "a.jpg"; "a.jpg"].
Proof.
  assert (H : forall f,
             In f ["a.jpg"; "b.png"] <-> In f ["b.png"; "a.jpg"; "a.jpg"]).
  { intros f. cbn. tauto. }
  split; [exact H|].
  exact (determine_mode_same_names _ _ H).
Defined.

Lemma determine_mode_disqualified_witness :
  In "notes.TXT" ["a.jpg"; "notes.TXT"; "b.png"] /\
  lower_extension "notes.TXT" = Some "txt" /\
  ~ In "txt" PHOTO_EXTENSIONS /\
  determine_mode ["a.jpg"; "notes.TXT"; "b.png"] = Default.
Proof.
  assert (H1 : In "notes.TXT" ["a.jpg"; "notes.TXT"; "b.png"])
    by (right; left; reflexivity).
  assert (H3 : ~ In "txt" PHOTO_EXTENSIONS).
  { intros H. cbn in H. repeat destruct H as [H|H]; try discriminate H.
    exact H. }
  split; [exact H1|]. split; [reflexivity|]. split; [exact H3|].
  exact (determine_mode_disqualified _ "notes.TXT" "txt" H1 eq_refl H3).
Defined.

Lemma determine_mode_ignores_case_witness :
  map PyStr.lower ["A.JPG"; "b.Png"] = map PyStr.lower ["a.jpg"; "B.PNG"] /\
  determine_mode ["A.JPG"; "b.Png"] = determine_mode ["a.jpg"; "B.PNG"].
Proof.
  split; [reflexivity|].
  exact (determine_mode_ignores_case ["A.JPG"; "b.Png"] ["a.jpg"; "B.PNG"]
           eq_refl).
Defined.

Lemma default_ext_decomposition_witness :
  PyStr.contains "." "archive.tar.gz" = true /\
  exists stem,
    "archive.tar.gz" = (stem ++ "." ++ default_ext "archive.tar.gz")%string /\
    PyStr.contains "." (default_ext "archive.tar.gz") = false.
Proof.
  split; [reflexivity|].
  exact (default_ext_decomposition "archive.tar.gz" eq_refl).
Defined.

Lemma trailing_dot_witness :
  ends_with_dot "draft." = true /\
  target_dir Sample.documents "d" Default "draft." = Ok "d/" /\
  PyPath.join "d/" "draft." = PyPath.join "d" "draft.".
Proof.
  split; [reflexivity|].
  exact (trailing_dot_moves_onto_itself Sample.documents "d" "draft." eq_refl).
Defined.

Lemma default_log_witness :
  PyStr.contains "/" "report.pdf" = false /\
  target_dir Sample.documents "d" Default "report.pdf" = Ok "d/pdf" /\
  move_log "report.pdf" "d/pdf" None = log_update "report.pdf → pdf".
Proof.
  split; [reflexivity|]. split; [reflexivity|].
  exact (default_log_names_extension Sample.documents "d" "report.pdf" "d/pdf"
           eq_refl eq_refl).
Defined.

Lemma only_DateTimeOriginal_witness :
  getexif Sample.digitized "d/scan.jpg"
    = Ok (Some [(306, ExifStr "2019:05:04 12:00:00");
                (36868, ExifStr "2018:01:01 00:00:00")]%Z) /\
  getmtime Sample.digitized "d/scan.jpg" = Ok 1609459200%Z /\
  get_image_year Sample.digitized "d/scan.jpg" = Ok "2021".
Proof.
  split; [reflexivity|]. split; [reflexivity|].
  refine (only_DateTimeOriginal_counts Sample.digitized "d/scan.jpg" _
            1609459200%Z eq_refl _ eq_refl).
  intros kv [<- | [<- | []]]; discriminate.
Defined.

Lemma metadata_year_witness :
  capture_date Sample.photos "d/a.jpg" = Some "2020:03:01 10:00:00" /\
  exists year rest,
    get_image_year Sample.photos "d/a.jpg" = Ok year /\
    "2020:03:01 10:00:00" = (year ++ rest)%string /\
    PyStr.contains ":" year = false /\
    (rest = "" \/ exists r, rest = String ":" r).
Proof.
  split; [reflexivity|].
  exact (metadata_year_is_colon_free_prefix Sample.photos "d/a.jpg"
           "2020:03:01 10:00:00" eq_refl).
Defined.

Lemma never_cancelled_witness :
  _is_running Sample.self = true /\
  how (run never Sample.self Sample.guarded) <> Cancelled.
Proof.
  split; [reflexivity|].
  exact (never_cancelled_without_stop never Sample.self Sample.guarded
           eq_refl (fun _ => eq_refl)).
Defined.

Lemma stopped_worker_witness :
  listing Sample.self Sample.documents <> [] /\
  run never (stop Sample.self) Sample.documents =
  {| events := [ log_update "Сортируем файлы по расширению.";
                 log_update "Операция отменена.";
                 log_update "Организация завершена."; finished_signal ];
     calls := []; final := Sample.documents; processed := 0;
     how := Cancelled |}.
Proof.
  assert (H : listing Sample.self Sample.documents <> [])
    by (vm_compute; discriminate).
  split; [exact H|].
  exact (stopped_worker_moves_nothing never Sample.self Sample.documents H).
Defined.

Lemma folder_created_then_filled_witness :
  how (run never Sample.self Sample.guarded) = Exhausted /\
  iterations "d" (calls (run never Sample.self Sample.guarded)).
Proof.
  assert (X : how (run never Sample.self Sample.guarded) = Exhausted)
    by (vm_compute; reflexivity).
  split; [exact X|].
  apply (folder_created_then_filled never Sample.self Sample.guarded).
  intros e. rewrite X. discriminate.
Defined.

Lemma default_mode_abort_witness :
  determine_mode (@listing MemFS.fs readonly_os Sample.self Sample.documents)
    = Default /\
  how (@run MemFS.fs readonly_os never Sample.self Sample.documents)
    = Uncaught "[Errno 30] Read-only file system: 'd/pdf'" /\
  exists cs tdir,
    calls (@run MemFS.fs readonly_os never Sample.self Sample.documents)
    = cs ++ [call_makedirs tdir].
Proof.
  split; [reflexivity|]. split; [vm_compute; reflexivity|].
  apply (@default_mode_aborts_on_makedirs_only MemFS.fs readonly_os never
           Sample.self Sample.documents
           "[Errno 30] Read-only file system: 'd/pdf'").
  - reflexivity.
  - vm_compute. reflexivity.
Defined.

Lemma progress_within_one_witness :
  (1 <= 29 <= 100)%Z /\ (100 < 2 ^ 45)%Z /\
  (exact_percentage 29 100 - 1 <= progress 29 100 <= exact_percentage 29 100)%Z.
Proof.
  assert (H1 : (1 <= 29 <= 100)%Z) by lia.
  assert (H2 : (100 < 2 ^ 45)%Z) by reflexivity.
  split; [exact H1|]. split; [exact H2|].
  exact (progress_within_one_of_exact 29 100 H1 H2).
Defined.

Lemma progress_full_only_at_end_witness :
  (1 <= 199 < 200)%Z /\ (200 < 2 ^ 45)%Z /\ (progress 199 200 <= 99)%Z.
Proof.
  assert (H1 : (1 <= 199 < 200)%Z) by lia.
  assert (H2 : (200 < 2 ^ 45)%Z) by reflexivity.
  split; [exact H1|]. split; [exact H2|].
  exact (progress_full_only_at_end 199 200 H1 H2).
Defined.

Lemma invalid_folder_witness :
  memfs_isdir Sample.documents "d/report.pdf" = false /\
  organize_session memfs_isdir
    (App.select_folder App.init "d/report.pdf") Sample.documents
  = (App.log (App.select_folder App.init "d/report.pdf") "Неверная папка.",
     Sample.documents).
Proof.
  split; [reflexivity|].
  apply (invalid_folder_starts_nothing memfs_isdir
           (App.select_folder App.init "d/report.pdf") Sample.documents).
  right. reflexivity.
Defined.

Lemma session_witness :
  memfs_isdir Sample.documents "d" = true /\
  how (run never (Worker_init "d") Sample.documents) = Exhausted /\
  App.organize_btn
    (fst (organize_session memfs_isdir window_on_d Sample.documents)) = true /\
  App.progress
    (fst (organize_session memfs_isdir window_on_d Sample.documents)) = 100%Z.
Proof.
  assert (X : how (run never (Worker_init "d") Sample.documents) = Exhausted)
    by (vm_compute; reflexivity).
  assert (N : App.folder_line window_on_d <> "") by discriminate.
  assert (R : forall e,
             how (run never (Worker_init (App.folder_line window_on_d))
                    Sample.documents) <> Uncaught e).
  { intros e. change (App.folder_line window_on_d) with "d". rewrite X.
    discriminate. }
  destruct (session_of_a_returning_run memfs_isdir window_on_d
              Sample.documents N eq_refl R) as [S F].
  split; [reflexivity|]. split; [exact X|]. split.
  - rewrite S. reflexivity.
  - exact (F X).
Defined.

(** ** Claims C4 and C7 revisited *)

Lemma Forall2_map_r {A B : Type} (P : A -> B -> Prop) (f : A -> B)
    (l : list A) :
  (forall x, In x l -> P x (f x)) -> Forall2 P l (map f l).
Proof.
  induction l as [|a l IH]; intros H; cbn [map]; constructor.
  - apply H. now left.
  - apply IH. intros x Hx. apply H. now right.
Qed.

Section Percentages.

Context {world : Type} {os : OS world}.

(** C4, amended. In every run the progress values are the percentages
    [int((i / total) * 100)] of [i = 1 .. processed], computed in binary64:
    they never decrease, lie between 0 and 100, and each is the exact
    truncated percentage [i * 100 // total] or one less (for up to [2^45]
    files); and a run that reaches the end of its loop, whatever moves
    failed, has processed every file and ends on the value 100. *)
Theorem progress_percentages_of_a_run stop_arrives (self : Worker)
    (w : world) :
  let o := run stop_arrives self w in
  let total := Z.of_nat (List.length (listing self w)) in
  progress_values (events o)
    = map (fun i => progress (Z.of_nat i) total)
          (seq 1 (Z.to_nat (processed o))) /\
  StronglySorted Z.le (progress_values (events o)) /\
  Forall (fun v => 0 <= v <= 100)%Z (progress_values (events o)) /\
  ((total < 2 ^ 45)%Z ->
   Forall2 (fun i v =>
              exact_percentage (Z.of_nat i) total - 1 <= v
              <= exact_percentage (Z.of_nat i) total)%Z
           (seq 1 (Z.to_nat (processed o))) (progress_values (events o))) /\
  (how o = Exhausted ->
     List.last (progress_values (events o)) 0%Z = 100%Z /\
     processed o = total).
Proof.
  intros o total.
  destruct (run_percentages stop_arrives self w) as (Hv & Hs & Hb & Hx).
  fold o in Hv, Hs, Hb, Hx. fold total in Hv, Hx.
  refine (conj Hv (conj Hs (conj Hb (conj _ Hx)))).
  intros Ht. rewrite Hv. apply Forall2_map_r. intros i Hi.
  apply in_seq in Hi.
  destruct (run_progress_values stop_arrives self w)
    as (n & Hn & Hp & _ & _).
  fold o in Hp. rewrite Hp, Nat2Z.id in Hi.
  apply progress_near_exact; [|exact Ht]. subst total. lia.
Qed.

End Percentages.

(** C4 as stated fails twice: in a folder of a hundred files the 29th value
    is 28, not the 29 that [29 / 100 x 100] truncates to; and a run that is
    not cancelled, on a folder with files, left by [os.makedirs] raising,
    emits no progress value at all, so none that is 100. *)
Lemma progress_neither_exact_nor_final :
  (List.length (listing Sample.self Sample.hundred) = 100%nat /\
   how (run never Sample.self Sample.hundred) = Exhausted /\
   nth 28 (progress_values (events (run never Sample.self Sample.hundred)))
       0%Z = 28%Z /\
   exact_percentage 29 100 = 29%Z) /\
  (@listing MemFS.fs readonly_os Sample.self Sample.documents
     = ["report.pdf"; "notes.txt"] /\
   how (@run MemFS.fs readonly_os never Sample.self Sample.documents)
     <> Cancelled /\
   progress_values
     (events (@run MemFS.fs readonly_os never Sample.self Sample.documents))
     = [] /\
   List.last
     (progress_values
        (events (@run MemFS.fs readonly_os never Sample.self
                   Sample.documents))) 0%Z <> 100%Z).
Proof. vm_compute. repeat split; discriminate. Qed.

Lemma progress_percentages_witness :
  (Z.of_nat (List.length (listing Sample.self Sample.guarded)) < 2 ^ 45)%Z /\
  how (run never Sample.self Sample.guarded) = Exhausted /\
  progress_values (events (run never Sample.self Sample.guarded))
    = [33; 66; 100]%Z /\
  Forall2 (fun i v =>
             exact_percentage (Z.of_nat i) 3 - 1 <= v
             <= exact_percentage (Z.of_nat i) 3)%Z
          [1; 2; 3]%nat [33; 66; 100]%Z /\
  List.last (progress_values (events (run never Sample.self Sample.guarded)))
            0%Z = 100%Z.
Proof.
  assert (T : (Z.of_nat (List.length (listing Sample.self Sample.guarded))
               < 2 ^ 45)%Z) by (vm_compute; reflexivity).
  assert (X : how (run never Sample.self Sample.guarded) = Exhausted)
    by (vm_compute; reflexivity).
  assert (V : progress_values (events (run never Sample.self Sample.guarded))
              = [33; 66; 100]%Z) by (vm_compute; reflexivity).
  destruct (progress_percentages_of_a_run never Sample.self Sample.guarded)
    as (_ & _ & _ & H4 & H5).
  split; [exact T|]. split; [exact X|]. split; [exact V|]. split.
  - specialize (H4 T). rewrite V in H4. exact H4.
  - exact (proj1 (H5 X)).
Defined.

(** C7. On a folder the system will not write to, [os.makedirs] raises at
    the first file, outside the [try] of line 75: the run is neither one
    without files nor cancelled, it has emitted the line that names the
    mode, and it ends without completion signal. *)
Theorem makedirs_failure_skips_completion :
  @listing MemFS.fs readonly_os Sample.self Sample.documents
    = ["report.pdf"; "notes.txt"] /\
  how (@run MemFS.fs readonly_os never Sample.self Sample.documents)
    = Uncaught "[Errno 30] Read-only file system: 'd/pdf'" /\
  events (@run MemFS.fs readonly_os never Sample.self Sample.documents)
    = [log_update "Сортируем файлы по расширению."] /\
  completions
    (events (@run MemFS.fs readonly_os never Sample.self Sample.documents))
    = 0%nat.
Proof. vm_compute. repeat split. Qed.
